(** * The report parser of the monitoring front end

    A shallow embedding of [parseAndOrganizeData] (src/index.tsx, lines
    61-216) together with the JavaScript built-ins it calls, and the
    properties of the report it produces.

    Conventions of the embedding.
    - A JavaScript string is a [string]; each character stands for one code
      unit below 256.
    - A JavaScript Number is a [number] (module [JSNumber]): an IEEE-754
      binary64 value, with rounding to nearest (ties to even) written out.
    - An object used as a dictionary ([processed], [rawTableData], [graphs],
      [pivotTables], ...) is a [gmap string _], read by key.  The members
      inherited from [Object.prototype] are not part of the model: keys are
      the names found in the log.
    - A [Map] or [Set], whose iteration order is the insertion order, is an
      association list or a duplicate-free list. *)

From Stdlib Require Import ZArith NArith Ascii String List Sorted Permutation Lia.
From stdpp Require Import gmap strings list fin_maps.

Local Open Scope string_scope.
Local Open Scope list_scope.

(** ** Strings *)

Module JSString.

(** [WhiteSpace] and [LineTerminator] code units below 256: TAB, LF, VT, FF,
    CR, SP and NBSP. *)
Definition isWhiteSpace (c : ascii) : bool :=
  let n := N_of_ascii c in
  ((9 <=? n) && (n <=? 13) || (n =? 32) || (n =? 160))%N.

Fixpoint trimStart (s : string) : string :=
  match s with
  | String c s' => if isWhiteSpace c then trimStart s' else s
  | EmptyString => EmptyString
  end.

(** [trimEnd]: a white-space character is dropped when nothing but
    white space follows it. *)
Fixpoint trimEnd (s : string) : string :=
  match s with
  | EmptyString => EmptyString
  | String c s' =>
      match trimEnd s' with
      | EmptyString => if isWhiteSpace c then EmptyString else String c EmptyString
      | t => String c t
      end
  end.

Definition trim (s : string) : string := trimEnd (trimStart s).

(** [s.split(sep)] for a one-character separator: never the empty array. *)
Fixpoint split (sep : ascii) (s : string) : list string :=
  match s with
  | EmptyString => [EmptyString]
  | String c s' =>
      if Ascii.eqb c sep then EmptyString :: split sep s'
      else match split sep s' with
           | p :: ps => String c p :: ps
           | [] => [String c EmptyString]
           end
  end.

Definition isDigit (c : ascii) : bool :=
  let n := N_of_ascii c in ((48 <=? n) && (n <=? 57))%N.

Definition digitValue (c : ascii) : N := (N_of_ascii c - 48)%N.

(** The longest prefix of decimal digits, and what follows it. *)
Fixpoint spanDigits (s : string) : list ascii * string :=
  match s with
  | String c s' =>
      if isDigit c then let '(ds, r) := spanDigits s' in (c :: ds, r)
      else ([], s)
  | EmptyString => ([], EmptyString)
  end.

Definition digitsValue (ds : list ascii) : N :=
  fold_left (fun acc c => (10 * acc + digitValue c)%N) ds 0%N.

(** [startsWith p s]: the rest of [s] after the prefix [p]. *)
Fixpoint stripPrefix (p s : string) : option string :=
  match p, s with
  | EmptyString, _ => Some s
  | String a p', String b s' => if Ascii.eqb a b then stripPrefix p' s' else None
  | String _ _, EmptyString => None
  end.

End JSString.

(** ** Numbers: IEEE-754 binary64

  Every finite double is an integer multiple of 2^-1074, so a finite value
  is kept as a sign and its magnitude counted in that unit. *)

Module JSNumber.
Import JSString.

Inductive number : Type :=
| NaN
| Inf (neg : bool)
| Fin (neg : bool) (m : N).

#[export] Instance number_eq_dec : EqDecision number.
Proof. solve_decision. Defined.

(** The number of units in 1. *)
Definition scale : N := (2 ^ 1074)%N.

(** Magnitudes from 2^1024 (in units: 2^2098) overflow. *)
Definition overflow : N := (2 ^ 2098)%N.

Arguments scale : simpl never.
Arguments overflow : simpl never.

(** [p / q] rounded to the nearest integer, ties to the even one. *)
Definition div_half_even (p q : N) : N :=
  let a := (p / q)%N in
  let r := (p mod q)%N in
  if (2 * r <? q)%N then a
  else if (q <? 2 * r)%N then (a + 1)%N
  else if N.even a then a else (a + 1)%N.

(** The double nearest to [p / q] units ([q] positive): 53 significant
    bits are kept, the rest is rounded away. *)
Definition round_ratio (neg : bool) (p q : N) : number :=
  let d := (N.size (p / q) - 53)%N in
  let m := (div_half_even p (q * 2 ^ d) * 2 ^ d)%N in
  if (overflow <=? m)%N then Inf neg else Fin neg m.

Definition zero : number := Fin false 0.

(** An integer as a Number, without rounding: exact up to 2^53. *)
Definition ofInteger (z : Z) : number := Fin (z <? 0)%Z (Z.abs_N z * scale).

(** An array index or length as a Number.  Lengths are below 2^32, where
    the conversion is exact; it is written exact throughout. *)
Definition of_nat (n : nat) : number := Fin false (N.of_nat n * scale).

Definition signed (neg : bool) (m : N) : Z :=
  if neg then (- Z.of_N m)%Z else Z.of_N m.

Definition fneg (x : number) : number :=
  match x with
  | NaN => NaN
  | Inf s => Inf (negb s)
  | Fin s m => Fin (negb s) m
  end.

Definition fadd (x y : number) : number :=
  match x, y with
  | NaN, _ | _, NaN => NaN
  | Inf a, Inf b => if Bool.eqb a b then Inf a else NaN
  | Inf a, Fin _ _ => Inf a
  | Fin _ _, Inf b => Inf b
  | Fin a m, Fin b n =>
      let z := (signed a m + signed b n)%Z in
      if (z =? 0)%Z then Fin (a && b) 0
      else round_ratio (z <? 0)%Z (Z.abs_N z) 1
  end.

Definition fsub (x y : number) : number := fadd x (fneg y).

Definition isNaN (x : number) : bool :=
  match x with NaN => true | _ => false end.

(** [x < y]; false when either side is NaN. *)
Definition flt (x y : number) : bool :=
  match x, y with
  | NaN, _ | _, NaN => false
  | Inf a, Inf b => a && negb b
  | Inf a, Fin _ _ => a
  | Fin _ _, Inf b => negb b
  | Fin a m, Fin b n => (signed a m <? signed b n)%Z
  end.

(** [x === y] on Numbers. *)
Definition feq (x y : number) : bool :=
  match x, y with
  | NaN, _ | _, NaN => false
  | Inf a, Inf b => Bool.eqb a b
  | Fin a m, Fin b n => (signed a m =? signed b n)%Z
  | _, _ => false
  end.

(** [x >= y]. *)
Definition fge (x y : number) : bool := flt y x || feq x y.

(** ToBoolean: NaN, +0 and -0 are falsy. *)
Definition truthy (x : number) : bool :=
  match x with
  | NaN => false
  | Inf _ => true
  | Fin _ m => negb (m =? 0)%N
  end.

(** [x || 0]. *)
Definition orZero (x : number) : number := if truthy x then x else zero.

(** *** parseInt(s, 10) *)

Definition splitSign (s : string) : bool * string :=
  match s with
  | String "-" r => (true, r)
  | String "+" r => (false, r)
  | _ => (false, s)
  end.

Definition parseInt (s : string) : number :=
  let '(neg, r) := splitSign (trimStart s) in
  match spanDigits r with
  | ([], _) => NaN
  | (ds, _) => round_ratio neg (digitsValue ds * scale) 1
  end.

(** *** parseFloat(s): the longest prefix that is a StrDecimalLiteral *)

(** The value [m * 10^e], rounded. *)
Definition decimal (neg : bool) (m : N) (e : Z) : number :=
  match e with
  | Zneg k => round_ratio neg (m * scale) (10 ^ Npos k)
  | _ => round_ratio neg (m * 10 ^ Z.to_N e * scale) 1
  end.

(** An ExponentPart at the head of [s], when there is one. *)
Definition exponentPart (s : string) : Z :=
  match s with
  | String c r =>
      if Ascii.eqb c "e" || Ascii.eqb c "E" then
        let '(eneg, r') := splitSign r in
        match spanDigits r' with
        | ([], _) => 0%Z
        | (ds, _) => signed eneg (digitsValue ds)
        end
      else 0%Z
  | EmptyString => 0%Z
  end.

Definition parseFloat (s : string) : number :=
  let '(neg, r) := splitSign (trimStart s) in
  match stripPrefix "Infinity" r with
  | Some _ => Inf neg
  | None =>
      let '(ip, r1) := spanDigits r in
      let '(fp, r2) :=
        match r1 with
        | String "." r1' =>
            let '(fp, r2) := spanDigits r1' in
            match ip, fp with
            | [], [] => ([], r1)
            | _, _ => (fp, r2)
            end
        | _ => ([], r1)
        end in
      match ip, fp with
      | [], [] => NaN
      | _, _ =>
          decimal neg (digitsValue (ip ++ fp))
                  (exponentPart r2 - Z.of_nat (length fp))
      end
  end.

(** *** Number::toString(x), radix 10 *)

(** The magnitude [m] units against [10^n]. *)
Definition below_pow10 (m : N) (n : Z) : bool :=
  match n with
  | Zneg k => (m * 10 ^ Npos k <? scale)%N
  | _ => (m <? 10 ^ Z.to_N n * scale)%N
  end.

(** The least [n] from [n0] on with [m] units below [10^n]. *)
Fixpoint magnitude (fuel : nat) (m : N) (n0 : Z) : Z :=
  match fuel with
  | O => n0
  | S fuel' => if below_pow10 m n0 then n0 else magnitude fuel' m (n0 + 1)%Z
  end.

(** Where the search starts: below the decimal magnitude of [m] units,
    from the binary one (log10 2 is 0.30102999...). *)
Definition magnitudeFloor (m : N) : Z :=
  ((Z.of_N (N.log2 m) - 1074) * 30103 / 100000 - 2)%Z.

(** [m] units over [10^e], as a fraction of naturals. *)
Definition scaled (m : N) (e : Z) : N * N :=
  match e with
  | Zneg k => ((m * 10 ^ Npos k)%N, scale)
  | _ => (m, (scale * 10 ^ Z.to_N e)%N)
  end.

(** The candidates with [k] digits for the value [m] units of magnitude
    [n]: the decimals just below and just above it, closest first (the even
    one in a tie), kept when they read back as the same double. *)
Definition candidates (m : N) (n : Z) (k : N) : list (N * Z) :=
  let '(p, q) := scaled m (n - Z.of_N k) in
  let lo := (p / q)%N in
  let r := (p mod q)%N in
  let hi := (lo + 1)%N in
  let clo := (lo, n) in
  let chi := if (hi =? 10 ^ k)%N then ((10 ^ (k - 1))%N, (n + 1)%Z) else (hi, n) in
  let ordered :=
    if (r =? 0)%N then [clo]
    else if (2 * r <? q)%N then [clo; chi]
    else if (q <? 2 * r)%N then [chi; clo]
    else if N.even lo then [clo; chi] else [chi; clo] in
  List.filter
    (fun '(s, n') =>
       bool_decide (decimal false s (n' - Z.of_N k) = Fin false m))
    ordered.

(** The shortest digits: [(s, n, k)] with [k] least. *)
Fixpoint shortest (fuel : nat) (m : N) (n : Z) (k : N) : N * Z * N :=
  match fuel with
  | O => (0%N, n, k)
  | S fuel' =>
      match candidates m n k with
      | (s, n') :: _ => (s, n', k)
      | [] => shortest fuel' m n (k + 1)%N
      end
  end.

Definition digitChar (d : N) : ascii := ascii_of_N (48 + d).

(** The [k] decimal digits of [s], most significant first. *)
Fixpoint digitsOf (k : nat) (s : N) (acc : string) : string :=
  match k with
  | O => acc
  | S k' => digitsOf k' (s / 10)%N (String (digitChar (s mod 10)%N) acc)
  end.

(** The decimal digits of a natural, without leading zeros. *)
Fixpoint natDigits (fuel : nat) (s : N) (acc : string) : string :=
  match fuel with
  | O => acc
  | S fuel' =>
      let acc' := String (digitChar (s mod 10)%N) acc in
      if (s <? 10)%N then acc' else natDigits fuel' (s / 10)%N acc'
  end.

Definition zeros (n : nat) : string := string_of_list_ascii (repeat "0"%char n).

Fixpoint takeS (n : nat) (s : string) : string :=
  match n, s with
  | S n', String c s' => String c (takeS n' s')
  | _, _ => EmptyString
  end.

Fixpoint dropS (n : nat) (s : string) : string :=
  match n, s with
  | S n', String _ s' => dropS n' s'
  | _, _ => s
  end.

Definition exponentString (e : Z) : string :=
  (if (e <? 0)%Z then "-" else "+") +:+ natDigits 20 (Z.abs_N e) "".

Definition formatDigits (s : N) (n : Z) (k : N) : string :=
  let ds := digitsOf (N.to_nat k) s "" in
  let kz := Z.of_N k in
  if ((kz <=? n) && (n <=? 21))%Z then
    ds +:+ zeros (Z.to_nat (n - kz))
  else if ((0 <? n) && (n <=? 21))%Z then
    takeS (Z.to_nat n) ds +:+ "." +:+ dropS (Z.to_nat n) ds
  else if ((-6 <? n) && (n <=? 0))%Z then
    "0." +:+ zeros (Z.to_nat (- n)) +:+ ds
  else if (k =? 1)%N then
    ds +:+ "e" +:+ exponentString (n - 1)
  else
    takeS 1 ds +:+ "." +:+ dropS 1 ds +:+ "e" +:+ exponentString (n - 1).

Definition toString (x : number) : string :=
  match x with
  | NaN => "NaN"
  | Inf s => (if s then "-" else "") +:+ "Infinity"
  | Fin s m =>
      if (m =? 0)%N then "0"
      else
        let n := magnitude 640 m (magnitudeFloor m) in
        let '(d, n', k) := shortest 17 m n 1 in
        (if s then "-" else "") +:+ formatDigits d n' k
  end.

End JSNumber.

(** ** Array.prototype.sort

  The sort is stable, and its result is fixed by the comparator when the
  comparator is consistent.  It is modelled by the stable insertion sort:
  an element moves right past the elements it compares greater than.  A
  comparator result that is NaN counts as +0. *)

Module JSArray.
Import JSNumber.

Section Sort.
Context {A : Type} (comparefn : A → A → number).

Definition greater (x y : A) : bool := flt zero (comparefn x y).

Fixpoint insert (x : A) (l : list A) : list A :=
  match l with
  | [] => [x]
  | y :: l' => if greater x y then y :: insert x l' else x :: l
  end.

Fixpoint sort (l : list A) : list A :=
  match l with
  | [] => []
  | x :: l' => insert x (sort l')
  end.
End Sort.

(** [a.filter((_, idx) => keep(idx))], the indices counted from [i]. *)
Fixpoint filterIndex {A : Type} (keep : nat → bool) (i : nat) (l : list A) : list A :=
  match l with
  | [] => []
  | x :: l' =>
      if keep i then x :: filterIndex keep (S i) l' else filterIndex keep (S i) l'
  end.

(** [a[x]] for a Number [x]: an element when [x] is an index of [a],
    undefined otherwise. *)
Definition at_number {A : Type} (l : list A) (x : number) : option A :=
  match x with
  | Fin s m =>
      if (m =? 0)%N then l !! 0%nat
      else if s then None
      else if (m mod scale =? 0)%N then l !! N.to_nat (m / scale) else None
  | _ => None
  end.

(** [set.add(x)] on a Set kept in insertion order. *)
Definition setAdd (x : string) (l : list string) : list string :=
  if bool_decide (x ∈ l) then l else l ++ [x].

End JSArray.

(** ** The data parser *)

Module Parser.
Import JSString JSNumber JSArray.

(** *** Type definitions (lines 8-30) *)

Record Tuple : Type := mkTuple { tupleTimeRange : string; tupleValue : number }.

(** [GraphData], with the temporary [tuples] field that the parser hangs on
    it while it reads the lines ([None]: the field is absent). *)
Record GraphData : Type := mkGraphData {
  labels : list string;
  values : list number;
  tuples : option (list Tuple)
}.

Record TableRow : Type := mkTableRow { timeRange : string; columns : list string }.

Record StandardTableData : Type := mkStandardTableData { rows : list TableRow }.

Record PivotTableData : Type := mkPivotTableData {
  headers : list string;
  pivotedRows : list (list string)
}.

Record ItemData : Type := mkItemData {
  graphs : gmap string GraphData;
  standardTables : gmap string StandardTableData;
  pivotTables : gmap string PivotTableData
}.

Abbreviation ProcessedResults := (gmap string ItemData).

(** An entry of the temporary structure [rawTableData]. *)
Record RawTable : Type := mkRawTable { keyIndex : number; rawRows : list TableRow }.

Abbreviation RawTableData := (gmap string (gmap string RawTable)).

#[export] Instance Tuple_eq_dec : EqDecision Tuple.
Proof. solve_decision. Defined.
#[export] Instance GraphData_eq_dec : EqDecision GraphData.
Proof. solve_decision. Defined.
#[export] Instance TableRow_eq_dec : EqDecision TableRow.
Proof. solve_decision. Defined.
#[export] Instance StandardTableData_eq_dec : EqDecision StandardTableData.
Proof. solve_decision. Defined.
#[export] Instance PivotTableData_eq_dec : EqDecision PivotTableData.
Proof. solve_decision. Defined.

(** *** getSortableHour (lines 65-69) *)

(** [s.split(':')[0]]. *)
Definition beforeColon (s : string) : string :=
  match split ":" s with
  | p :: _ => p
  | [] => EmptyString
  end.

Definition getSortableHour (timeRangeString : string) : number :=
  match timeRangeString with
  | EmptyString => zero
  | _ =>
      let hour := parseInt (beforeColon timeRangeString) in
      if flt hour (of_nat 6) then fadd hour (of_nat 24) else hour
  end.

(** The comparator of both sorts: [getSortableHour(a) - getSortableHour(b)]. *)
Definition compareTimeRanges (a b : string) : number :=
  fsub (getSortableHour a) (getSortableHour b).

Definition compareTuples (a b : Tuple) : number :=
  fsub (getSortableHour (tupleTimeRange a)) (getSortableHour (tupleTimeRange b)).

(** *** Reading the lines (lines 63, 81-119) *)

Definition rawLines (rawData : string) : list string :=
  List.filter (fun line => negb (String.eqb (trim line) ""))
              (split "010"%char rawData).

Definition emptyItem : ItemData :=
  {| graphs := ∅; standardTables := ∅; pivotTables := ∅ |}.

Definition initializeItem (itemName : string) (processed : ProcessedResults)
  : ProcessedResults :=
  match processed !! itemName with
  | Some _ => processed
  | None => <[itemName := emptyItem]> processed
  end.

(** Lines 99-104, on [processed[itemName]]. *)
Definition pushTuple (dataName timeRange : string) (value : number)
           (item : ItemData) : ItemData :=
  let graphData :=
    match graphs item !! dataName with
    | Some g => g
    | None => {| labels := []; values := []; tuples := None |}
    end in
  let pushed := default [] (tuples graphData) ++ [mkTuple timeRange value] in
  {| graphs :=
       <[dataName := {| labels := labels graphData;
                        values := values graphData;
                        tuples := Some pushed |}]> (graphs item);
     standardTables := standardTables item;
     pivotTables := pivotTables item |}.

(** Lines 112-117: the table is created with the key index of its first
    record, and the row is pushed. *)
Definition pushRow (itemName tableName : string) (parsedKeyIndex : number)
           (row : TableRow) (rawTableData : RawTableData) : RawTableData :=
  let tables := default ∅ (rawTableData !! itemName) in
  let table :=
    default {| keyIndex := parsedKeyIndex; rawRows := [] |} (tables !! tableName) in
  <[itemName :=
      <[tableName := {| keyIndex := keyIndex table;
                        rawRows := rawRows table ++ [row] |}]> tables]>
    rawTableData.

(** The two accumulators of the loop over the lines. *)
Record Collected : Type := mkCollected {
  processed : ProcessedResults;
  rawTableData : RawTableData
}.

(** The body of [rawLines.forEach] (lines 82-118). *)
Definition processLine (acc : Collected) (line : string) : Collected :=
  match split ";" line with
  | timeRange :: itemName :: dataType :: name :: field4 :: more =>
      (* parts.length >= 5 *)
      let initialized := initializeItem itemName (processed acc) in
      match more with
      | [] =>
          (* parts.length === 5 *)
          if String.eqb dataType "numero" then
            let value := parseFloat field4 in
            if negb (isNaN value) then
              {| processed := alter (pushTuple name timeRange value) itemName initialized;
                 rawTableData := rawTableData acc |}
            else {| processed := initialized; rawTableData := rawTableData acc |}
          else {| processed := initialized; rawTableData := rawTableData acc |}
      | _ :: _ =>
          (* parts.length >= 6 *)
          if String.eqb dataType "tabla" then
            let parsedKeyIndex := parseInt field4 in
            if isNaN parsedKeyIndex || flt parsedKeyIndex (of_nat 1) then
              {| processed := initialized; rawTableData := rawTableData acc |}
            else
              {| processed := initialized;
                 rawTableData :=
                   pushRow itemName name parsedKeyIndex
                           {| timeRange := timeRange; columns := more |}
                           (rawTableData acc) |}
          else {| processed := initialized; rawTableData := rawTableData acc |}
      end
  | _ => acc (* parts.length < 5 *)
  end.

(** [rawLines.forEach(...)], from the empty accumulators. *)
Definition collect (lines : list string) : Collected :=
  fold_left processLine lines {| processed := ∅; rawTableData := ∅ |}.

(** *** Pivoting (lines 122-200) *)

(** A value of [aggregatedData]. *)
Record Aggregate : Type := mkAggregate {
  otherKeyColumns : list string;
  total : number;
  timeData : gmap string number
}.

(** [aggregatedData]: a Map in insertion order; the key is a column value,
    or undefined ([None]) for a row too short to have that column. *)
Abbreviation AggregatedData := (list (option string * Aggregate)).

(** String(v) for a string or undefined. *)
Definition stringOf (v : option string) : string := default "undefined" v.

(** [m.has(k)]. *)
Definition mapHas (k : option string) (m : AggregatedData) : bool :=
  existsb (fun e => bool_decide (e.1 = k)) m.

(** The entry of [k] replaced by its image under [f]. *)
Fixpoint mapUpdate (k : option string) (f : Aggregate → Aggregate)
         (m : AggregatedData) : AggregatedData :=
  match m with
  | [] => []
  | (k', e) :: m' =>
      if bool_decide (k' = k) then (k', f e) :: m' else (k', e) :: mapUpdate k f m'
  end.

(** [timeData.get(tr) || 0]. *)
Definition getOrZero (timeData : gmap string number) (tr : string) : number :=
  match timeData !! tr with
  | Some x => orZero x
  | None => zero
  end.

(** The body of [rows.forEach] (lines 145-162). *)
Definition aggregateRow (groupingColumnIndex : number) (valueColumnIndex : nat)
           (acc : AggregatedData * list string) (row : TableRow)
  : AggregatedData * list string :=
  let '(aggregatedData, allTimeRanges) := acc in
  let groupingValue := at_number (columns row) groupingColumnIndex in
  let valueStr := columns row !! valueColumnIndex in
  let value := orZero (parseFloat (stringOf valueStr)) in
  let otherColumns :=
    filterIndex
      (fun idx => negb (feq (of_nat idx) groupingColumnIndex)
                  && negb (idx =? valueColumnIndex)%nat)
      0 (columns row) in
  let withKey :=
    if mapHas groupingValue aggregatedData then aggregatedData
    else aggregatedData ++
           [(groupingValue,
             {| otherKeyColumns := otherColumns; total := zero; timeData := ∅ |})] in
  (mapUpdate groupingValue
     (fun entry =>
        {| otherKeyColumns := otherKeyColumns entry;
           total := fadd (total entry) value;
           timeData :=
             <[timeRange row := fadd (getOrZero (timeData entry) (timeRange row)) value]>
               (timeData entry) |})
     withKey,
   setAdd (timeRange row) allTimeRanges).

(** A cell of a row before it is rendered: a string, a number, or
    undefined. *)
Inductive Cell : Type :=
| CUndefined
| CString (s : string)
| CNumber (x : number).

(** String(cell). *)
Definition renderCell (c : Cell) : string :=
  match c with
  | CUndefined => "undefined"
  | CString s => s
  | CNumber x => toString x
  end.

Definition keyCell (groupingValue : option string) : Cell :=
  match groupingValue with
  | Some s => CString s
  | None => CUndefined
  end.

(** The loop of lines 177-183: [n] columns remain, [i] is the column and
    [otherKeyColumnIndex] the next passthrough value. *)
Fixpoint textColumns (groupingColumnIndex : number) (groupingValue : option string)
         (others : list string) (n i otherKeyColumnIndex : nat) : list Cell :=
  match n with
  | O => []
  | S n' =>
      if feq (of_nat i) groupingColumnIndex then
        keyCell groupingValue
          :: textColumns groupingColumnIndex groupingValue others n' (S i)
                         otherKeyColumnIndex
      else
        CString (default "" (others !! otherKeyColumnIndex))
          :: textColumns groupingColumnIndex groupingValue others n' (S i)
                         (S otherKeyColumnIndex)
  end.

(** [newRow] (lines 185-189). *)
Definition newRow (groupingColumnIndex : number) (numTextColumns : nat)
           (sortedTimeRanges : list string) (entry : option string * Aggregate)
  : list Cell :=
  let '(groupingValue, data) := entry in
  textColumns groupingColumnIndex groupingValue (otherKeyColumns data)
              numTextColumns 0 0
    ++ [CNumber (total data)]
    ++ map (fun tr => CNumber (getOrZero (timeData data) tr)) sortedTimeRanges.

Definition textColumnHeaders (numTextColumns : nat) : list string :=
  map (fun i => "Column " +:+ toString (of_nat (i + 1))) (seq 0 numTextColumns).

(** [keyIndex - 1] and [rows[0].columns.length - 1] (lines 130-131).  A
    table line has at least 6 fields, so [columns] is never empty. *)
Definition groupingColumnIndexOf (tableData : RawTable) : number :=
  fsub (keyIndex tableData) (of_nat 1).

Definition valueColumnIndexOf (row0 : TableRow) : nat :=
  (length (columns row0) - 1)%nat.

(** [rows.forEach(...)] from the empty Map and the empty Set (lines 136-163). *)
Definition aggregate (groupingColumnIndex : number) (valueColumnIndex : nat)
           (tableRows : list TableRow) : AggregatedData * list string :=
  fold_left (aggregateRow groupingColumnIndex valueColumnIndex) tableRows ([], []).

(** The rows of lines 173-192, before [newRow.map(String)]. *)
Definition pivotCells (groupingColumnIndex : number) (valueColumnIndex : nat)
           (tableRows : list TableRow) : list (list Cell) :=
  let '(aggregatedData, allTimeRanges) :=
    aggregate groupingColumnIndex valueColumnIndex tableRows in
  map (newRow groupingColumnIndex valueColumnIndex
              (sort compareTimeRanges allTimeRanges))
      aggregatedData.

(** The body of the inner loop (lines 124-198) for one table: the pivot
    table, or [None] where the loop continues without one. *)
Definition pivotTable (tableData : RawTable) : option PivotTableData :=
  match rawRows tableData with
  | [] => None
  | row0 :: _ =>
      let groupingColumnIndex := groupingColumnIndexOf tableData in
      let valueColumnIndex := valueColumnIndexOf row0 in
      if fge groupingColumnIndex (of_nat valueColumnIndex)
         || flt groupingColumnIndex zero
      then None
      else
        let sortedTimeRanges :=
          sort compareTimeRanges
               (aggregate groupingColumnIndex valueColumnIndex
                          (rawRows tableData)).2 in
        let numTextColumns := valueColumnIndex in
        let finalHeaders :=
          textColumnHeaders numTextColumns ++ ["Total"] ++ sortedTimeRanges in
        Some {| headers := finalHeaders;
                pivotedRows :=
                  map (map renderCell)
                      (pivotCells groupingColumnIndex valueColumnIndex
                                  (rawRows tableData)) |}
  end.

(** [processed[itemName].pivotTables[tableName] = pivot]. *)
Definition setPivotTable (itemName tableName : string) (pivot : PivotTableData)
           (processed : ProcessedResults) : ProcessedResults :=
  alter (fun item =>
           {| graphs := graphs item;
              standardTables := standardTables item;
              pivotTables := <[tableName := pivot]> (pivotTables item) |})
        itemName processed.

(** The two nested [for ... in] loops over [rawTableData]. *)
Definition pivotAll (rawTableData : RawTableData) (processed : ProcessedResults)
  : ProcessedResults :=
  map_fold
    (fun itemName tables processed =>
       map_fold
         (fun tableName tableData processed =>
            match pivotTable tableData with
            | Some pivot => setPivotTable itemName tableName pivot processed
            | None => processed
            end)
         processed tables)
    processed rawTableData.

(** *** Sorting the graph data (lines 203-213) *)

Definition sortGraph (graphData : GraphData) : GraphData :=
  match tuples graphData with
  | Some ts =>
      let sorted := sort compareTuples ts in
      {| labels := map tupleTimeRange sorted;
         values := map tupleValue sorted;
         tuples := None |}
  | None => graphData
  end.

Definition sortGraphs (processed : ProcessedResults) : ProcessedResults :=
  (fun item =>
     {| graphs := sortGraph <$> graphs item;
        standardTables := standardTables item;
        pivotTables := pivotTables item |}) <$> processed.

(** *** parseAndOrganizeData (lines 61-216) *)

(** Everything after the lines are split. *)
Definition organize (lines : list string) : ProcessedResults :=
  let collected := collect lines in
  sortGraphs (pivotAll (rawTableData collected) (processed collected)).

Definition parseAndOrganizeData (rawData : string) : ProcessedResults :=
  organize (rawLines rawData).

(** Reading the report by key. *)
Definition graphAt (report : ProcessedResults) (itemName graphName : string)
  : option GraphData :=
  report !! itemName ≫= fun item => graphs item !! graphName.

Definition standardTableAt (report : ProcessedResults) (itemName tableName : string)
  : option StandardTableData :=
  report !! itemName ≫= fun item => standardTables item !! tableName.

Definition pivotTableAt (report : ProcessedResults) (itemName tableName : string)
  : option PivotTableData :=
  report !! itemName ≫= fun item => pivotTables item !! tableName.

Definition rawTableAt (rawTableData : RawTableData) (itemName tableName : string)
  : option RawTable :=
  rawTableData !! itemName ≫= fun tables => tables !! tableName.

End Parser.

(** ** The record decoder, in the words of the specification

  A second reading of a line, written from the description of the
  decoder rather than from the loop body: what a line decodes to, and the
  records of one graph or one table in the order of the lines. *)

Module Decoder.
Import JSString JSNumber JSArray Parser.

Inductive RawRecord : Type :=
| Numeric (timeRange itemName seriesName : string) (value : number)
| Table (timeRange itemName tableName : string) (keyColumnIndex : number)
        (columns : list string).

Definition decode (line : string) : option RawRecord :=
  let fields := split ";" line in
  if (length fields <? 5)%nat then None
  else
    match fields with
    | timeRange :: itemName :: discriminator :: rest =>
        if String.eqb discriminator "numero" then
          match rest with
          | [seriesName; valueString] =>
              let value := parseFloat valueString in
              if isNaN value then None
              else Some (Numeric timeRange itemName seriesName value)
          | _ => None
          end
        else if String.eqb discriminator "tabla" then
          match rest with
          | tableName :: keyIndexString :: column :: columns =>
              let keyColumnIndex := parseInt keyIndexString in
              if isNaN keyColumnIndex then None
              else if flt keyColumnIndex (of_nat 1) then None
              else Some (Table timeRange itemName tableName keyColumnIndex
                               (column :: columns))
          | _ => None
          end
        else None
    | _ => None
    end.

Definition recordItem (r : RawRecord) : string :=
  match r with
  | Numeric _ itemName _ _ => itemName
  | Table _ itemName _ _ _ => itemName
  end.

(** The item name of a line with at least 5 fields. *)
Definition lineItem (line : string) : option string :=
  let fields := split ";" line in
  if (5 <=? length fields)%nat then fields !! 1%nat else None.

Definition itemNames (lines : list string) : list string := omap lineItem lines.

(** The sample a line gives to the graph [seriesName] of [itemName]. *)
Definition numericSample (itemName seriesName : string) (line : string)
  : option Tuple :=
  match decode line with
  | Some (Numeric timeRange itemName' seriesName' value) =>
      if bool_decide (itemName' = itemName ∧ seriesName' = seriesName)
      then Some (mkTuple timeRange value) else None
  | _ => None
  end.

Definition numericSamples (lines : list string) (itemName seriesName : string)
  : list Tuple :=
  omap (numericSample itemName seriesName) lines.

(** The key index and row a line gives to the table [tableName] of
    [itemName]. *)
Definition tableRecord (itemName tableName : string) (line : string)
  : option (number * TableRow) :=
  match decode line with
  | Some (Table timeRange itemName' tableName' keyColumnIndex columns) =>
      if bool_decide (itemName' = itemName ∧ tableName' = tableName)
      then Some (keyColumnIndex, mkTableRow timeRange columns) else None
  | _ => None
  end.

Definition tableRecords (lines : list string) (itemName tableName : string)
  : list (number * TableRow) :=
  omap (tableRecord itemName tableName) lines.

(** The entry of [rawTableData] that the records of one table make: the key
    index of the first, the rows of all. *)
Definition tableOfRecords (records : list (number * TableRow)) : option RawTable :=
  match records with
  | [] => None
  | (keyColumnIndex, _) :: _ =>
      Some {| keyIndex := keyColumnIndex; rawRows := map snd records |}
  end.

(** The graph under construction that the samples of one series make. *)
Definition graphOfSamples (samples : list Tuple) : option GraphData :=
  match samples with
  | [] => None
  | _ => Some {| labels := []; values := []; tuples := Some samples |}
  end.

(** The time ordering rank of a sample. *)
Definition rank (t : Tuple) : number := getSortableHour (tupleTimeRange t).

(** [sorted] is [l] stably sorted by rank: the same samples, no sample
    right before one of lower rank (nor anywhere before one, when every
    rank is a number), and the samples of any one rank in the order they
    have in [l]. *)
Definition StableSortByRank (l sorted : list Tuple) : Prop :=
  Permutation l sorted
  ∧ Sorted (fun a b => flt (rank b) (rank a) = false) sorted
  ∧ (Forall (fun t => isNaN (rank t) = false) l →
     StronglySorted (fun a b => flt (rank b) (rank a) = false) sorted)
  ∧ ∀ r, List.filter (fun t => bool_decide (rank t = r)) sorted
         = List.filter (fun t => bool_decide (rank t = r)) l.

(** The value a table row gives to the pivot: its value column read as a
    number, 0 when that fails. *)
Definition rowValue (valueColumnIndex : nat) (row : TableRow) : number :=
  orZero (parseFloat (stringOf (columns row !! valueColumnIndex))).

(** The sum of a sequence of numbers, left to right. *)
Definition sumNumbers (l : list number) : number := fold_left fadd l zero.

(** The column of a pivot table headed "Total". *)
Fixpoint totalIndex (headers : list string) : nat :=
  match headers with
  | [] => 0
  | h :: headers' => if String.eqb h "Total" then 0 else S (totalIndex headers')
  end.

(** A row of a table with its value column, when unreadable, set to "0". *)
Definition zeroUnparsable (valueColumnIndex : nat) (row : TableRow) : TableRow :=
  match columns row !! valueColumnIndex with
  | Some valueStr =>
      if isNaN (parseFloat valueStr)
      then {| timeRange := timeRange row;
              columns := <[valueColumnIndex := "0"]> (columns row) |}
      else row
  | None => row
  end.

End Decoder.

(** ** The properties the specification states of the report

    Three of them, as they are stated; the report is measured against them
    below. *)

Module Specification.
Import JSString JSNumber JSArray Parser Decoder.

(** Every decoded table record is a row of the standard table of its item
    and table name, whose rows are the records in the order of the lines. *)
Definition StandardTablesHoldRows : Prop :=
  ∀ rawData line timeRange itemName tableName keyColumnIndex columns,
    line ∈ rawLines rawData →
    decode line = Some (Table timeRange itemName tableName keyColumnIndex columns) →
    ∃ table,
      standardTableAt (parseAndOrganizeData rawData) itemName tableName = Some table
      ∧ rows table = map snd (tableRecords (rawLines rawData) itemName tableName).

(** An input none of whose lines decodes gives the empty report. *)
Definition MalformedInputGivesEmptyReport : Prop :=
  ∀ rawData,
    (∀ line, line ∈ rawLines rawData → decode line = None) →
    parseAndOrganizeData rawData = ∅.

(** In every row of every pivot table, the cell under "Total" reads as the
    sum of the cells after it, those of the time ranges. *)
Definition TotalIsSumOfCells : Prop :=
  ∀ rawData itemName tableName pivot row,
    pivotTableAt (parseAndOrganizeData rawData) itemName tableName = Some pivot →
    row ∈ pivotedRows pivot →
    parseFloat <$> row !! totalIndex (headers pivot)
    = Some (sumNumbers (map parseFloat (drop (S (totalIndex (headers pivot))) row))).

(** Sums of integers, and of their magnitudes. *)
Definition sumZ (zs : list Z) : Z := foldr Z.add 0%Z zs.

Definition sumAbs (zs : list Z) : Z := foldr (fun z acc => Z.abs z + acc)%Z 0%Z zs.

(** An entry of the pivot that holds integers: [cell] is the integer of each
    time range, 0 outside [times]; the total is their sum, and their
    magnitudes sum to [bound] at most. *)
Definition IntegerEntry (times : list string) (bound : Z) (data : Aggregate) : Prop :=
  ∃ cell : string → Z,
    (∀ tr, getOrZero (timeData data) tr = ofInteger (cell tr))
    ∧ (∀ tr, tr ∉ times → cell tr = 0%Z)
    ∧ total data = ofInteger (sumZ (map cell times))
    ∧ (sumAbs (map cell times) <= bound)%Z.

(** The Map and the Set of the pivot, all of whose entries hold integers. *)
Definition IntegerAggregate (bound : Z) (acc : AggregatedData * list string) : Prop :=
  (0 <= bound)%Z
  ∧ NoDup acc.2
  ∧ Forall (fun entry => IntegerEntry acc.2 bound entry.2) acc.1.

(** A log of the given lines, one per line. *)
Definition newline : string := String "010"%char "".

Fixpoint joinLines (lines : list string) : string :=
  match lines with
  | [] => ""
  | [line] => line
  | line :: lines' => line +:+ newline +:+ joinLines lines'
  end.

End Specification.

(** ** Views of the pivot, for the properties below *)

Module Views.
Import JSString JSNumber JSArray Parser Decoder.

(** The elements of a list, each where it first occurs. *)
Definition firstOccurrences (l : list string) : list string :=
  fold_left (fun seen x => setAdd x seen) l [].

(** [row.columns[groupingColumnIndex]] (line 146). *)
Definition groupingValueOf (groupingColumnIndex : number) (row : TableRow)
  : option string :=
  at_number (columns row) groupingColumnIndex.

(** [row.columns.filter(...)] (line 150). *)
Definition otherColumnsOf (groupingColumnIndex : number) (valueColumnIndex : nat)
           (row : TableRow) : list string :=
  filterIndex
    (fun idx => negb (feq (of_nat idx) groupingColumnIndex)
                && negb (idx =? valueColumnIndex)%nat)
    0 (columns row).

(** The rows that bring a grouping value not in [seen] nor in a row before. *)
Fixpoint firstRows (groupingColumnIndex : number) (seen : list (option string))
         (tableRows : list TableRow) : list TableRow :=
  match tableRows with
  | [] => []
  | row :: tableRows' =>
      if bool_decide (groupingValueOf groupingColumnIndex row ∈ seen)
      then firstRows groupingColumnIndex seen tableRows'
      else row :: firstRows groupingColumnIndex
                            (seen ++ [groupingValueOf groupingColumnIndex row])
                            tableRows'
  end.

(** [sorted] is [l] stably sorted by the rank of the labels. *)
Definition StableSortByHour (l sorted : list string) : Prop :=
  Permutation l sorted
  ∧ Sorted (fun a b => flt (getSortableHour b) (getSortableHour a) = false) sorted
  ∧ (Forall (fun t => isNaN (getSortableHour t) = false) l →
     StronglySorted (fun a b => flt (getSortableHour b) (getSortableHour a) = false)
                    sorted)
  ∧ ∀ r, List.filter (fun t => bool_decide (getSortableHour t = r)) sorted
         = List.filter (fun t => bool_decide (getSortableHour t = r)) l.

(** Text made of white space only. *)
Definition allWhite (s : string) : bool :=
  forallb isWhiteSpace (list_ascii_of_string s).

(** The place of an hour in the day that starts at 06:00. *)
Definition dayPosition (hour : Z) : Z := ((hour + 18) mod 24)%Z.

(** [m.get(k)]. *)
Fixpoint mapGet (k : option string) (m : AggregatedData) : option Aggregate :=
  match m with
  | [] => None
  | (k', e) :: m' => if bool_decide (k' = k) then Some e else mapGet k m'
  end.

(** The rows with a given value in the grouping column, and those of a
    given time range. *)
Definition rowsOfValue (groupingColumnIndex : number) (groupingValue : option string)
           (tableRows : list TableRow) : list TableRow :=
  List.filter
    (fun row => bool_decide (groupingValueOf groupingColumnIndex row = groupingValue))
    tableRows.

Definition rowsOfTime (tr : string) (tableRows : list TableRow) : list TableRow :=
  List.filter (fun row => bool_decide (timeRange row = tr)) tableRows.

(** The sum as a cell of a time range keeps it: each value is added to
    what the cell holds, or to 0 when that is falsy. *)
Definition sumCell (l : list number) : number :=
  fold_left (fun acc x => fadd (orZero acc) x) l zero.

End Views.

(** ** The front end: what is computed from the report (lines 377-393,
    529-592, 675-768) *)

Module Frontend.
Import JSString JSNumber JSArray Parser Decoder.

(** *** The accumulated values of a graph (lines 704-709) *)

(** [values.reduce((acc, val) => { newTotal = acc + val; push(newTotal);
    return newTotal }, acc)]. *)
Fixpoint cumulativeFrom (acc : number) (values : list number) : list number :=
  match values with
  | [] => []
  | val :: values' =>
      let newTotal := fadd acc val in
      newTotal :: cumulativeFrom newTotal values'
  end.

Definition cumulativeValues (values : list number) : list number :=
  cumulativeFrom zero values.

(** *** The canvases of the charts (lines 726, 739 and 529-541) *)

(** [`${activeTab}-${graphName}-${chartType}`]. *)
Definition canvasKey (activeTab graphName chartType : string) : string :=
  activeTab +:+ "-" +:+ graphName +:+ "-" +:+ chartType.

Record Canvases (C : Type) : Type := mkCanvases {
  barCanvas : option C;
  lineCanvas : option C
}.
Arguments mkCanvases {C} _ _.
Arguments barCanvas {C} _.
Arguments lineCanvas {C} _.

(** The body of the loop over [Object.entries(chartCanvasRefs.current)]
    (lines 530-541); a value that is not a canvas is [None]. *)
Definition registerCanvas {C : Type}
           (chartsByItem : gmap string (gmap string (Canvases C)))
           (entry : string * option C) : gmap string (gmap string (Canvases C)) :=
  match entry.2 with
  | None => chartsByItem
  | Some canvas =>
      let parts := split "-" entry.1 in
      let itemName := stringOf (parts !! 0%nat) in
      let graphName := stringOf (parts !! 1%nat) in
      let chartType := parts !! 2%nat in
      let graphsOfItem := default ∅ (chartsByItem !! itemName) in
      let canvases :=
        default {| barCanvas := None; lineCanvas := None |}
                (graphsOfItem !! graphName) in
      let registered :=
        if bool_decide (chartType = Some "bar") then
          {| barCanvas := Some canvas; lineCanvas := lineCanvas canvases |}
        else if bool_decide (chartType = Some "line") then
          {| barCanvas := barCanvas canvases; lineCanvas := Some canvas |}
        else canvases in
      <[itemName := <[graphName := registered]> graphsOfItem]> chartsByItem
  end.

(** [chartsByItem] after the loop; the entries are in the order of
    [Object.entries], the order they were set in. *)
Definition collectCharts {C : Type} (entries : list (string * option C))
  : gmap string (gmap string (Canvases C)) :=
  fold_left registerCanvas entries ∅.

Definition chartsAt {C : Type} (chartsByItem : gmap string (gmap string (Canvases C)))
           (itemName graphName : string) : option (Canvases C) :=
  chartsByItem !! itemName ≫= fun graphsOfItem => graphsOfItem !! graphName.

(** *** The tables of the slides (lines 558-592) and of the page (lines 749-768) *)

(** [Math.max(0, ...lengths)]. *)
Definition maxColumns (rowsColumns : list (list string)) : nat :=
  foldr Nat.max 0%nat (map length rowsColumns).

(** [[...columns, ...Array(maxCols - columns.length).fill('')]]. *)
Definition paddedColumns (maxCols : nat) (rowColumns : list string) : list string :=
  rowColumns ++ replicate (maxCols - length rowColumns) "".

(** [Object.entries(standardTables).flatMap(...)] (lines 563-565). *)
Definition allRowsOf (entries : list (string * StandardTableData))
  : list (string * TableRow) :=
  flat_map (fun entry => map (fun row => (entry.1, row)) (rows entry.2)) entries.

(** [tableData] of the standard tables of an item, or [None] where the
    item has no standard table and no slide is added (lines 558-574). *)
Definition standardTablesSlide (entries : list (string * StandardTableData))
  : option (list (list string)) :=
  match entries with
  | [] => None
  | _ =>
      let allRows := allRowsOf entries in
      let maxCols := maxColumns (map (fun r => columns r.2) allRows) in
      Some ((["Table"; "Time Range"] ++ textColumnHeaders maxCols)
              :: map (fun r => [r.1; timeRange r.2] ++ paddedColumns maxCols (columns r.2))
                     allRows)
  end.

(** [[pivotData.headers, ...pivotData.rows]] (line 588). *)
Definition pivotTableSlide (pivotData : PivotTableData) : list (list string) :=
  headers pivotData :: pivotedRows pivotData.

(** The header cells and the body rows of a standard table on the page
    (lines 750-766); a padding cell is empty. *)
Definition standardTableView (tableData : StandardTableData)
  : list string * list (list string) :=
  let maxCols := maxColumns (map columns (rows tableData)) in
  ("Rango Horario"
     :: map (fun i => "Columna " +:+ toString (of_nat (i + 1))) (seq 0 maxCols),
   map (fun row => timeRange row :: paddedColumns maxCols (columns row))
       (rows tableData)).

(** *** The tabs (lines 377-393 and 675) *)

(** The active tab once a report of tabs [newTabs] is in: [None] is null. *)
Definition selectActiveTab (current : option string) (newTabs : list string)
  : option string :=
  match newTabs with
  | [] => None
  | first :: _ =>
      match current with
      | Some tab =>
          if negb (String.eqb tab "") && bool_decide (tab ∈ newTabs)
          then Some tab else Some first
      | None => Some first
      end
  end.

(** [activeTab ? processedData[activeTab] : null]. *)
Definition currentTabData (activeTab : option string) (processedData : ProcessedResults)
  : option ItemData :=
  match activeTab with
  | Some tab => if String.eqb tab "" then None else processedData !! tab
  | None => None
  end.

End Frontend.

(** * Properties *)

(** ** Facts about numbers *)

Section NumberFacts.
Import JSNumber.

Local Opaque N.pow N.div N.modulo N.mul N.size N.log2.

Lemma div_half_even_exact (a q : N) : (0 < q)%N → div_half_even (a * q) q = a.
Proof.
  intros Hq. unfold div_half_even.
  rewrite N.div_mul, N.Div0.mod_mul by lia.
  destruct (N.ltb_spec (2 * 0) q) as [_|H]; [reflexivity | lia].
Qed.

Lemma div_half_even_ge (p q : N) : (0 < q)%N → (p / q <= div_half_even p q)%N.
Proof.
  intros Hq. unfold div_half_even.
  repeat match goal with |- context [if ?b then _ else _] => destruct b end; lia.
Qed.

(** A positive integer number of units never rounds to zero. *)
Lemma round_ratio_pos (neg : bool) (p : N) :
  (0 < p)%N →
  round_ratio neg p 1 = Inf neg
  ∨ ∃ m, (0 < m)%N ∧ round_ratio neg p 1 = Fin neg m.
Proof.
  intros Hp. unfold round_ratio. rewrite N.div_1_r, N.mul_1_l.
  set (d := (N.size p - 53)%N).
  match goal with |- context [if ?b then _ else _] => destruct b end; [by left|].
  right. eexists; split; [|reflexivity].
  assert (Hd : (2 ^ d <= p)%N).
  { destruct (decide (d = 0%N)) as [->|Hd0].
    - rewrite N.pow_0_r. lia.
    - transitivity (2 ^ N.log2 p)%N.
      + apply N.pow_le_mono_r; [lia|].
        subst d. rewrite N.size_log2 in * by lia. lia.
      + apply N.log2_spec. lia. }
  assert (H2 : (0 < 2 ^ d)%N) by (apply N.neq_0_lt_0, N.pow_nonzero; lia).
  pose proof (div_half_even_ge p (2 ^ d) H2) as Hge.
  assert (1 <= p / 2 ^ d)%N.
  { apply N.div_le_lower_bound; lia. }
  apply N.mul_pos_pos; lia.
Qed.

(** Integers below 2^53 are doubles: rounding leaves them alone. *)
Lemma round_ratio_integer (neg : bool) (n : N) :
  (n < 2 ^ 53)%N → round_ratio neg (n * scale) 1 = Fin neg (n * scale).
Proof.
  intros Hn. unfold round_ratio. rewrite N.div_1_r, N.mul_1_l.
  destruct (decide (n = 0%N)) as [->|Hn0].
  { rewrite !N.mul_0_l.
    destruct (N.leb_spec overflow 0) as [Hov|]; [|reflexivity].
    exfalso. unfold overflow in Hov.
    assert (0 < 2 ^ 2098)%N by (apply N.neq_0_lt_0, N.pow_nonzero; lia). lia. }
  assert (Hlog : (N.log2 n < 53)%N) by (apply N.log2_lt_pow2; lia).
  assert (Hsize : N.size (n * scale) = (N.log2 n + 1075)%N).
  { rewrite N.size_log2.
    - unfold scale. rewrite N.log2_mul_pow2 by lia. lia.
    - unfold scale. apply N.neq_mul_0. split; [done|]. apply N.pow_nonzero. lia. }
  rewrite Hsize.
  replace (N.log2 n + 1075 - 53)%N with (N.log2 n + 1022)%N by lia.
  set (d := (N.log2 n + 1022)%N).
  assert (Hsplit : (n * scale = (n * 2 ^ (1074 - d)) * 2 ^ d)%N).
  { unfold scale. rewrite <- N.mul_assoc, <- N.pow_add_r. f_equal. f_equal. lia. }
  assert (H2 : (0 < 2 ^ d)%N) by (apply N.neq_0_lt_0, N.pow_nonzero; lia).
  assert (Hexact : (div_half_even (n * scale) (2 ^ d) * 2 ^ d = n * scale)%N).
  { rewrite Hsplit at 1. rewrite div_half_even_exact by done. by rewrite <- Hsplit. }
  rewrite Hexact.
  destruct (N.leb_spec overflow (n * scale)) as [Hov|]; [|reflexivity].
  exfalso. unfold overflow, scale in Hov.
  assert ((n * 2 ^ 1074 < 2 ^ 53 * 2 ^ 1074)%N).
  { apply N.mul_lt_mono_pos_r; [|done]. apply N.neq_0_lt_0, N.pow_nonzero; lia. }
  rewrite <- N.pow_add_r in *. 
  assert ((2 ^ (53 + 1074) <= 2 ^ 2098)%N) by (apply N.pow_le_mono_r; lia).
  lia.
Qed.

Lemma scale_pos : (0 < scale)%N.
Proof. unfold scale. apply N.neq_0_lt_0, N.pow_nonzero. lia. Qed.

Lemma signed_0 (s : bool) : signed s 0 = 0%Z.
Proof. by destruct s. Qed.

(** The comparator of the sorts is positive exactly when its first
    argument is the greater. *)
Lemma flt_zero_fsub (x y : number) : flt zero (fsub x y) = flt y x.
Proof.
  destruct x as [|a|a m], y as [|b|b n]; try reflexivity;
    try (by destruct a, b); try (by destruct a); try (by destruct b).
  unfold fsub, fneg, fadd.
  set (z := (signed a m + signed (negb b) n)%Z).
  assert (Hz : z = (signed a m - signed b n)%Z).
  { subst z. unfold signed. destruct b; simpl; lia. }
  unfold flt at 2. destruct (Z.eqb_spec z 0) as [H0|H0].
  - unfold zero, flt. rewrite !signed_0. destruct (Z.ltb_spec (signed b n) (signed a m)); [lia|done].
  - destruct (round_ratio_pos (z <? 0)%Z (Z.abs_N z)) as [->|(m' & Hm' & ->)]; [lia| |].
    + unfold zero, flt. destruct (Z.ltb_spec z 0), (Z.ltb_spec (signed b n) (signed a m)); simpl; lia.
    + unfold zero, flt, signed at 1 2.
      destruct (Z.ltb_spec z 0), (Z.ltb_spec (signed b n) (signed a m));
        try lia; simpl.
      * destruct (Z.ltb_spec 0 (- Z.of_N m')); lia.
      * destruct (Z.ltb_spec 0 (Z.of_N m')); lia.
Qed.

Lemma of_nat_ofInteger (n : nat) : of_nat n = ofInteger (Z.of_nat n).
Proof.
  unfold of_nat, ofInteger. destruct (Z.ltb_spec (Z.of_nat n) 0); [lia|].
  do 2 f_equal. lia.
Qed.

Lemma ofInteger_0 : ofInteger 0 = zero.
Proof. unfold ofInteger, zero. simpl. by rewrite N.mul_0_l. Qed.

(** Adding integers is exact as long as the sum stays below 2^53. *)
Lemma fadd_ofInteger (a b : Z) :
  (Z.abs (a + b) < 2 ^ 53)%Z →
  fadd (ofInteger a) (ofInteger b) = ofInteger (a + b).
Proof.
  intros Hab. unfold ofInteger at 1 2. unfold fadd.
  pose proof scale_pos as Hs.
  assert (Hsig : ∀ c, signed (c <? 0)%Z (Z.abs_N c * scale) = (c * Z.of_N scale)%Z).
  { intros c. unfold signed. destruct (Z.ltb_spec c 0); lia. }
  rewrite !Hsig. rewrite <- Z.mul_add_distr_r.
  destruct (Z.eqb_spec ((a + b) * Z.of_N scale) 0) as [H0|H0].
  - assert (a + b = 0)%Z as -> by nia. rewrite ofInteger_0.
    unfold zero. f_equal. destruct (Z.ltb_spec a 0), (Z.ltb_spec b 0); simpl; try done. nia.
  - assert (a + b ≠ 0)%Z by nia.
    rewrite Zabs2N.inj_mul, Zabs2N.id.
    replace ((a + b) * Z.of_N scale <? 0)%Z with (a + b <? 0)%Z.
    2:{ destruct (Z.ltb_spec (a + b) 0), (Z.ltb_spec ((a + b) * Z.of_N scale) 0); try done; nia. }
    apply round_ratio_integer. 
    assert (Z.of_N (Z.abs_N (a + b)) < Z.of_N (2 ^ 53))%Z; [|lia].
    rewrite N2Z.inj_pow. simpl Z.of_N. lia.
Qed.

Lemma orZero_ofInteger (z : Z) : orZero (ofInteger z) = ofInteger z.
Proof.
  unfold orZero, ofInteger, truthy. pose proof scale_pos.
  destruct (N.eqb_spec (Z.abs_N z * scale) 0) as [H0|H0]; simpl; [|done].
  assert (z = 0%Z) as -> by nia. unfold zero. simpl. by rewrite N.mul_0_l.
Qed.

Lemma flt_irrefl (x : number) : flt x x = false.
Proof.
  destruct x as [|a|a m]; simpl; [done|by destruct a|].
  destruct (Z.ltb_spec (signed a m) (signed a m)); [lia|done].
Qed.

Lemma flt_asym (x y : number) : flt x y = true → flt y x = false.
Proof.
  destruct x as [|a|a m], y as [|b|b n]; simpl; try done;
    try (by destruct a, b); try (by destruct a); try (by destruct b).
  destruct (Z.ltb_spec (signed a m) (signed b n)),
           (Z.ltb_spec (signed b n) (signed a m)); try done. lia.
Qed.

(** On numbers other than NaN, not being greater is transitive. *)
Lemma flt_not_trans (x y z : number) :
  isNaN x = false → isNaN y = false → isNaN z = false →
  flt y x = false → flt z y = false → flt z x = false.
Proof.
  destruct x as [|a|a m], y as [|b|b n], z as [|c|c k]; simpl; try done;
    try (by destruct a, b, c); try (by destruct a, b); try (by destruct b, c);
    try (by destruct a, c).
  intros _ _ _.
  destruct (Z.ltb_spec (signed b n) (signed a m)),
           (Z.ltb_spec (signed c k) (signed b n)),
           (Z.ltb_spec (signed c k) (signed a m)); try done. lia.
Qed.

Local Transparent N.pow N.div N.modulo N.mul N.size N.log2.
End NumberFacts.

(** ** Facts about the sort *)

Section SortFacts.
Import JSNumber JSArray.
Context {A : Type} (comparefn : A → A → number).

Local Abbreviation greater := (greater comparefn).
Local Abbreviation insert := (insert comparefn).
Local Abbreviation sort := (sort comparefn).

Lemma insert_Permutation (x : A) (l : list A) : Permutation (x :: l) (insert x l).
Proof.
  induction l as [|y l IH]; simpl; [done|].
  destruct (greater x y); [|done].
  rewrite perm_swap. by constructor.
Qed.

Lemma sort_Permutation (l : list A) : Permutation l (sort l).
Proof.
  induction l as [|x l IH]; simpl; [done|].
  rewrite <- insert_Permutation. by constructor.
Qed.

Lemma sort_length (l : list A) : length (sort l) = length l.
Proof. symmetry. apply Permutation_length, sort_Permutation. Qed.

(** Stability: a class of elements none of which is greater than another
    keeps its order. *)
Section Stable.
Context (p : A → bool).
Hypothesis class : ∀ x y, p x = true → p y = true → greater x y = false.

Lemma insert_filter (x : A) (l : list A) :
  List.filter p (insert x l) = List.filter p (x :: l).
Proof.
  induction l as [|y l IH]; [done|].
  simpl insert. destruct (greater x y) eqn:Hg; [|done].
  simpl in *. rewrite IH.
  destruct (p x) eqn:Hx, (p y) eqn:Hy; try done.
  rewrite class in Hg; done.
Qed.

Lemma sort_filter (l : list A) : List.filter p (sort l) = List.filter p l.
Proof.
  induction l as [|x l IH]; [done|].
  simpl sort. rewrite insert_filter. simpl. by rewrite IH.
Qed.
End Stable.

(** Order: with a comparator that never finds two elements each greater
    than the other, no element of the result is greater than the next. *)
Section Ordered.
Hypothesis asym : ∀ x y, greater x y = true → greater y x = false.

Let ordered (a b : A) : Prop := greater a b = false.

Lemma insert_HdRel (x a : A) (l : list A) :
  ordered a x → HdRel ordered a l → HdRel ordered a (insert x l).
Proof.
  intros Hax Hal. destruct l as [|y l]; simpl; [by constructor|].
  destruct (greater x y); constructor; [by inversion Hal | done].
Qed.

Lemma insert_Sorted (x : A) (l : list A) :
  Sorted ordered l → Sorted ordered (insert x l).
Proof.
  induction l as [|y l IH]; intros Hs; simpl.
  - repeat constructor.
  - apply Sorted_inv in Hs as [Hs Hhd].
    destruct (greater x y) eqn:Hg.
    + constructor; [by apply IH|]. apply insert_HdRel; [|done].
      by apply asym.
    + constructor; [by constructor|]. by constructor.
Qed.

Lemma sort_Sorted (l : list A) : Sorted (fun a b => greater a b = false) (sort l).
Proof.
  induction l as [|x l IH]; simpl; [constructor|]. by apply insert_Sorted.
Qed.
End Ordered.

(** Where being ordered is transitive on the elements of the list, the
    order holds between any two positions. *)
Lemma Sorted_StronglySorted_on (R : A → A → Prop) (P : A → Prop) (l : list A) :
  (∀ x y z, P x → P y → P z → R x y → R y z → R x z) →
  Forall P l → Sorted R l → StronglySorted R l.
Proof.
  intros Htrans. induction l as [|a l IH]; intros HP Hs; [constructor|].
  apply Forall_cons in HP as [Ha HP]. apply Sorted_inv in Hs as [Hs Hhd].
  specialize (IH HP Hs). constructor; [done|].
  destruct IH as [|b l Hl Hb]; [constructor|].
  apply Forall_cons in HP as [HPb HP].
  assert (Hab : R a b) by (by inversion Hhd).
  constructor; [done|].
  rewrite Forall_forall in Hb, HP |- *. intros c Hc.
  apply (Htrans a b c); auto.
Qed.
End SortFacts.

(** ** Reading the lines: the loop against the decoder *)

Section CollectFacts.
Import JSString JSNumber JSArray Parser Decoder.

Lemma decode_lineItem (line : string) (r : RawRecord) :
  decode line = Some r → lineItem line = Some (recordItem r).
Proof.
  unfold decode, lineItem.
  destruct (split ";" line) as [|a [|b [|c [|d [|e more]]]]]; simpl; try done.
  destruct (String.eqb c "numero").
  - destruct more; [|done]. destruct (isNaN _); [done|]. by intros [= <-].
  - destruct (String.eqb c "tabla"); [|done].
    destruct more; [done|]. destruct (isNaN _); [done|].
    destruct (flt _ _); [done|]. by intros [= <-].
Qed.

Lemma lineItem_None_decode (line : string) : lineItem line = None → decode line = None.
Proof.
  intros Hn. destruct (decode line) as [r|] eqn:Hd; [|done].
  apply decode_lineItem in Hd. congruence.
Qed.

(** The loop body does what the decoder says: a line with at least 5
    fields initializes its item, and then its record, if it decodes to one,
    is pushed. *)
Lemma processLine_decode (acc : Collected) (line : string) :
  processLine acc line =
    match lineItem line with
    | None => acc
    | Some itemName =>
        let initialized := initializeItem itemName (processed acc) in
        match decode line with
        | Some (Numeric timeRange _ seriesName value) =>
            {| processed := alter (pushTuple seriesName timeRange value) itemName initialized;
               rawTableData := rawTableData acc |}
        | Some (Table timeRange _ tableName keyColumnIndex columns) =>
            {| processed := initialized;
               rawTableData :=
                 pushRow itemName tableName keyColumnIndex
                         (mkTableRow timeRange columns) (rawTableData acc) |}
        | None => {| processed := initialized; rawTableData := rawTableData acc |}
        end
    end.
Proof.
  unfold processLine, decode, lineItem.
  destruct (split ";" line) as [|a [|b [|c [|d [|e more]]]]]; simpl; try done.
  destruct (String.eqb_spec c "numero") as [->|Hn].
  - destruct more; simpl; [by destruct (isNaN _)|done].
  - destruct (String.eqb_spec c "tabla") as [->|Ht]; destruct more; simpl; try done.
    destruct (isNaN _); simpl; [done|]. by destruct (flt _ _).
Qed.

Lemma collect_snoc (lines : list string) (line : string) :
  collect (lines ++ [line]) = processLine (collect lines) line.
Proof. unfold collect. by rewrite fold_left_app. Qed.

Lemma initializeItem_lookup (itemName j : string) (p : ProcessedResults) :
  initializeItem itemName p !! j =
    match p !! j with
    | Some item => Some item
    | None => if bool_decide (itemName = j) then Some emptyItem else None
    end.
Proof.
  unfold initializeItem. destruct (p !! itemName) eqn:Hi.
  - destruct (p !! j) eqn:Hj; [done|]. case_bool_decide; [congruence|done].
  - rewrite lookup_insert. case_decide as Hij.
    + subst. rewrite Hi. by rewrite bool_decide_true.
    + rewrite bool_decide_false by done. by destruct (p !! j).
Qed.

Lemma pushRow_lookup (itemName tableName j t : string) (k : number)
      (row : TableRow) (raw : RawTableData) :
  rawTableAt (pushRow itemName tableName k row raw) j t =
    if bool_decide (itemName = j ∧ tableName = t) then
      let table := default {| keyIndex := k; rawRows := [] |}
                           (rawTableAt raw itemName tableName) in
      Some {| keyIndex := keyIndex table; rawRows := rawRows table ++ [row] |}
    else rawTableAt raw j t.
Proof.
  unfold pushRow, rawTableAt.
  destruct (decide (itemName = j)) as [->|Hij].
  - rewrite lookup_insert_eq. simpl.
    destruct (decide (tableName = t)) as [->|Htt].
    + rewrite lookup_insert_eq, bool_decide_true by done.
      by destruct (raw !! j).
    + rewrite lookup_insert_ne, bool_decide_false by naive_solver.
      destruct (raw !! j); simpl; [done|]. apply lookup_empty.
  - rewrite lookup_insert_ne, bool_decide_false by naive_solver. done.
Qed.

Lemma tableOfRecords_snoc (records : list (number * TableRow)) (k : number)
      (row : TableRow) :
  tableOfRecords (records ++ [(k, row)]) =
    let table := default {| keyIndex := k; rawRows := [] |} (tableOfRecords records) in
    Some {| keyIndex := keyIndex table; rawRows := rawRows table ++ [row] |}.
Proof.
  destruct records as [|[k0 r0] records]; simpl; [done|].
  by rewrite map_app.
Qed.

Lemma numericSamples_snoc (lines : list string) (line itemName seriesName : string) :
  numericSamples (lines ++ [line]) itemName seriesName =
    numericSamples lines itemName seriesName
      ++ option_list (numericSample itemName seriesName line).
Proof.
  unfold numericSamples. rewrite omap_app. simpl.
  by destruct (numericSample _ _ _).
Qed.

Lemma tableRecords_snoc (lines : list string) (line itemName tableName : string) :
  tableRecords (lines ++ [line]) itemName tableName =
    tableRecords lines itemName tableName
      ++ option_list (tableRecord itemName tableName line).
Proof.
  unfold tableRecords. rewrite omap_app. simpl.
  by destruct (tableRecord _ _ _).
Qed.

Lemma itemNames_snoc (lines : list string) (line : string) :
  itemNames (lines ++ [line]) = itemNames lines ++ option_list (lineItem line).
Proof.
  unfold itemNames. rewrite omap_app. simpl. by destruct (lineItem _).
Qed.

Lemma numericSample_item (itemName seriesName line : string) (t : Tuple) :
  numericSample itemName seriesName line = Some t → lineItem line = Some itemName.
Proof.
  unfold numericSample. destruct (decode line) as [[tr i s v|]|] eqn:Hd; try done.
  case_bool_decide as Heq; [|done]. intros _.
  apply decode_lineItem in Hd. simpl in Hd. by destruct Heq as [<- _].
Qed.

Lemma tableRecord_item (itemName tableName line : string) (kr : number * TableRow) :
  tableRecord itemName tableName line = Some kr → lineItem line = Some itemName.
Proof.
  unfold tableRecord. destruct (decode line) as [[|tr i t k cols]|] eqn:Hd; try done.
  case_bool_decide as Heq; [|done]. intros _.
  apply decode_lineItem in Hd. simpl in Hd. by destruct Heq as [<- _].
Qed.

Lemma numericSamples_nil (lines : list string) (itemName seriesName : string) :
  itemName ∉ itemNames lines → numericSamples lines itemName seriesName = [].
Proof.
  unfold numericSamples, itemNames.
  induction lines as [|line lines IH]; simpl; [done|].
  destruct (numericSample _ _ line) as [t|] eqn:Hs.
  - apply numericSample_item in Hs. rewrite Hs. set_solver.
  - destruct (lineItem line); set_solver.
Qed.

Lemma tableRecords_nil (lines : list string) (itemName tableName : string) :
  itemName ∉ itemNames lines → tableRecords lines itemName tableName = [].
Proof.
  unfold tableRecords, itemNames.
  induction lines as [|line lines IH]; simpl; [done|].
  destruct (tableRecord _ _ line) as [t|] eqn:Hs.
  - apply tableRecord_item in Hs. rewrite Hs. set_solver.
  - destruct (lineItem line); set_solver.
Qed.

(** The items of the accumulator: the item names of the lines with at
    least 5 fields. *)
Lemma collect_items (lines : list string) (j : string) :
  is_Some (processed (collect lines) !! j) ↔ j ∈ itemNames lines.
Proof.
  induction lines as [|line lines IH] using rev_ind.
  - simpl. rewrite lookup_empty. split; [by intros [? ?]|set_solver].
  - rewrite collect_snoc, processLine_decode, itemNames_snoc.
    destruct (lineItem line) as [i|]; simpl; [|by rewrite app_nil_r].
    assert (Hinit : is_Some (initializeItem i (processed (collect lines)) !! j)
                    ↔ j ∈ itemNames lines ++ [i]).
    { rewrite initializeItem_lookup, elem_of_app, <- IH, list_elem_of_singleton.
      destruct (processed (collect lines) !! j) as [item|].
      { split; [left|]; eauto. }
      case_bool_decide as Hij.
      { split; [by right|eauto]. }
      split; [by intros [? ?]|]. intros [[? ?]|?]; [done|]. by subst. }
    destruct (decode line) as [[tr i' sn v|tr i' tn k cols]|]; simpl; try done.
    rewrite <- Hinit. rewrite lookup_alter. case_decide; [|done].
    subst j. by rewrite fmap_is_Some.
Qed.

(** An item of the accumulator has no table of either kind yet, and the
    graphs under construction hold the samples decoded so far. *)
Lemma collect_item (lines : list string) (j : string) (item : ItemData) :
  processed (collect lines) !! j = Some item →
  standardTables item = ∅ ∧ pivotTables item = ∅
  ∧ ∀ s, graphs item !! s = graphOfSamples (numericSamples lines j s).
Proof.
  revert item. induction lines as [|line lines IH] using rev_ind; intros item.
  - simpl. by rewrite lookup_empty.
  - rewrite collect_snoc, processLine_decode.
    destruct (lineItem line) as [i|] eqn:Hitem; simpl.
    2:{ intros Hj. destruct (IH _ Hj) as (? & ? & Hg). repeat split; try done.
        intros s. rewrite numericSamples_snoc, Hg.
        unfold numericSample. rewrite (lineItem_None_decode _ Hitem). simpl.
        by rewrite app_nil_r. }
    set (p := processed (collect lines)) in *.
    (* the item once initialized *)
    assert (Hinit : ∀ item0, initializeItem i p !! j = Some item0 →
              standardTables item0 = ∅ ∧ pivotTables item0 = ∅
              ∧ ∀ s, graphs item0 !! s = graphOfSamples (numericSamples lines j s)).
    { intros item0. rewrite initializeItem_lookup.
      destruct (p !! j) as [item1|] eqn:Hp.
      - intros [= <-]. by apply IH.
      - case_bool_decide; [|done]. intros [= <-]. repeat split; try done.
        intros s. simpl. rewrite lookup_empty, numericSamples_nil; [done|].
        rewrite <- collect_items. fold p. rewrite Hp. by intros [? ?]. }
    destruct (decode line) as [[tr i' sn v|tr i' tn k cols]|] eqn:Hd; simpl.
    + pose proof (decode_lineItem _ _ Hd) as Hi'. simpl in Hi'.
      assert (i' = i) as -> by congruence.
      rewrite lookup_alter. case_decide as Hij.
      * subst j. destruct (initializeItem i p !! i) as [item0|] eqn:H0; [|done].
        simpl. intros [= <-]. destruct (Hinit _ eq_refl) as (Hst & Hpt & Hg).
        repeat split; try done. intros s. simpl.
        rewrite numericSamples_snoc. unfold numericSample. rewrite Hd.
        destruct (decide (sn = s)) as [->|Hs].
        -- rewrite lookup_insert_eq, bool_decide_true by done. simpl.
           rewrite Hg. by destruct (numericSamples lines i s).
        -- rewrite lookup_insert_ne, bool_decide_false by naive_solver.
           simpl. by rewrite app_nil_r.
      * intros Hj. destruct (Hinit _ Hj) as (? & ? & Hg). repeat split; try done.
        intros s. rewrite numericSamples_snoc, Hg. unfold numericSample. rewrite Hd.
        rewrite bool_decide_false by naive_solver. simpl. by rewrite app_nil_r.
    + intros Hj. destruct (Hinit _ Hj) as (? & ? & Hg). repeat split; try done.
      intros s. rewrite numericSamples_snoc, Hg. unfold numericSample. rewrite Hd.
      simpl. by rewrite app_nil_r.
    + intros Hj. destruct (Hinit _ Hj) as (? & ? & Hg). repeat split; try done.
      intros s. rewrite numericSamples_snoc, Hg. unfold numericSample. rewrite Hd.
      simpl. by rewrite app_nil_r.
Qed.

(** The temporary structure holds, for each table, the key index of its
    first record and the rows of its records in the order of the lines. *)
Lemma collect_rawTable (lines : list string) (j t : string) :
  rawTableAt (rawTableData (collect lines)) j t
  = tableOfRecords (tableRecords lines j t).
Proof.
  induction lines as [|line lines IH] using rev_ind.
  - unfold rawTableAt. simpl. by rewrite lookup_empty.
  - rewrite collect_snoc, processLine_decode, tableRecords_snoc.
    unfold tableRecord.
    destruct (lineItem line) as [i|] eqn:Hitem; simpl.
    2:{ rewrite (lineItem_None_decode _ Hitem). simpl. by rewrite app_nil_r. }
    destruct (decode line) as [[tr i' sn v|tr i' tn k cols]|] eqn:Hd; simpl;
      try (by rewrite app_nil_r).
    pose proof (decode_lineItem _ _ Hd) as Hi'. simpl in Hi'.
    assert (i' = i) as -> by congruence.
    rewrite pushRow_lookup. case_bool_decide as Heq; simpl.
    + destruct Heq as [-> ->]. by rewrite tableOfRecords_snoc, IH.
    + by rewrite app_nil_r.
Qed.
End CollectFacts.

(** ** The loops over the objects *)

Section PivotAllFacts.
Import JSString JSNumber JSArray Parser Decoder.

(** The item [itemName] once the pivot tables of [tables] are set. *)
Local Abbreviation withPivots tables :=
  (fun item : ItemData =>
     {| graphs := graphs item;
        standardTables := standardTables item;
        pivotTables := omap pivotTable tables ∪ pivotTables item |}).

Lemma withPivots_empty (item : ItemData) :
  withPivots (∅ : gmap string RawTable) item = item.
Proof. destruct item. simpl. by rewrite omap_empty, (left_id_L ∅ (∪)). Qed.

(** The inner loop, over the tables of one item. *)
Lemma pivotTables_inner (itemName : string) (tables : gmap string RawTable)
      (p : ProcessedResults) :
  map_fold
    (fun tableName tableData processed =>
       match pivotTable tableData with
       | Some pivot => setPivotTable itemName tableName pivot processed
       | None => processed
       end) p tables
  = alter (withPivots tables) itemName p.
Proof.
  apply (map_fold_weak_ind
           (fun r (m : gmap string RawTable) => r = alter (withPivots m) itemName p)).
  - symmetry. apply alter_id. intros item _. apply withPivots_empty.
  - intros tn td m r Hm ->.
    destruct (pivotTable td) as [pivot|] eqn:Hp.
    + unfold setPivotTable. rewrite alter_alter_eq.
      apply alter_ext. intros item _. simpl.
      by rewrite (omap_insert_Some _ _ _ _ _ Hp), insert_union_l.
    + apply alter_ext. intros item _.
      rewrite (omap_insert_None _ _ _ _ Hp), delete_id; [done|].
      by rewrite lookup_omap, Hm.
Qed.

(** The two loops: every item gets the pivot tables of its tables. *)
Lemma pivotAll_lookup (raw : RawTableData) (p : ProcessedResults) (j : string) :
  pivotAll raw p !! j = withPivots (default ∅ (raw !! j)) <$> p !! j.
Proof.
  unfold pivotAll. revert j.
  apply (map_fold_weak_ind
           (fun r (m : RawTableData) =>
              ∀ j, r !! j = withPivots (default ∅ (m !! j)) <$> p !! j)).
  - intros j. rewrite lookup_empty. simpl.
    destruct (p !! j) as [item|]; simpl; [|done]. by rewrite withPivots_empty.
  - intros i tables m r Hm IH j.
    rewrite pivotTables_inner, lookup_alter, lookup_insert.
    case_decide as Hij.
    + subst j. rewrite IH, Hm. simpl.
      destruct (p !! i) as [item|]; simpl; [|done].
      f_equal. f_equal. by rewrite omap_empty, (left_id_L ∅ (∪)).
    + apply IH.
Qed.

(** *** The report, read by key *)

Lemma organize_lookup (lines : list string) (j : string) :
  organize lines !! j =
    (fun item =>
       {| graphs := sortGraph <$> graphs item;
          standardTables := ∅;
          pivotTables :=
            omap pivotTable (default ∅ (rawTableData (collect lines) !! j)) |})
      <$> processed (collect lines) !! j.
Proof.
  unfold organize, sortGraphs. rewrite lookup_fmap, pivotAll_lookup.
  destruct (processed (collect lines) !! j) as [item|] eqn:Hj; simpl; [|done].
  destruct (collect_item _ _ _ Hj) as (-> & -> & _).
  by rewrite (right_id_L ∅ (∪)).
Qed.

Lemma organize_is_Some (lines : list string) (j : string) :
  is_Some (organize lines !! j) ↔ j ∈ itemNames lines.
Proof. by rewrite organize_lookup, fmap_is_Some, collect_items. Qed.

Lemma organize_graphAt (lines : list string) (j s : string) :
  graphAt (organize lines) j s
  = sortGraph <$> graphOfSamples (numericSamples lines j s).
Proof.
  unfold graphAt. rewrite organize_lookup.
  destruct (processed (collect lines) !! j) as [item|] eqn:Hj; simpl.
  - destruct (collect_item _ _ _ Hj) as (_ & _ & Hg).
    by rewrite lookup_fmap, Hg.
  - rewrite numericSamples_nil; [done|].
    rewrite <- collect_items, Hj. by intros [? ?].
Qed.

Lemma organize_standardTableAt (lines : list string) (j t : string) :
  standardTableAt (organize lines) j t = None.
Proof.
  unfold standardTableAt. rewrite organize_lookup.
  by destruct (processed (collect lines) !! j).
Qed.

Lemma organize_pivotTableAt (lines : list string) (j t : string) :
  pivotTableAt (organize lines) j t
  = tableOfRecords (tableRecords lines j t) ≫= pivotTable.
Proof.
  unfold pivotTableAt. rewrite organize_lookup.
  rewrite <- collect_rawTable. unfold rawTableAt.
  destruct (processed (collect lines) !! j) as [item|] eqn:Hj; simpl.
  - rewrite lookup_omap.
    destruct (rawTableData (collect lines) !! j); simpl; [done|].
    by rewrite lookup_empty.
  - pose proof (collect_rawTable lines j t) as Hraw. unfold rawTableAt in Hraw.
    rewrite Hraw, tableRecords_nil; [done|].
    rewrite <- collect_items, Hj. by intros [? ?].
Qed.
End PivotAllFacts.

(** ** The time ordering rank *)

Section RankFacts.
Import JSString JSNumber JSArray Parser Decoder.

Lemma split_before (sep : ascii) (prefix rest : string) :
  ¬ In sep (list_ascii_of_string prefix) →
  split sep (prefix +:+ String sep rest) = prefix :: split sep rest.
Proof.
  induction prefix as [|c prefix IH]; simpl; intros Hnot.
  - by rewrite Ascii.eqb_refl.
  - destruct (Ascii.eqb_spec c sep) as [->|Hc]; [tauto|].
    rewrite IH by tauto. done.
Qed.

Lemma beforeColon_prefix (prefix rest : string) :
  ¬ In ":"%char (list_ascii_of_string prefix) →
  beforeColon (prefix +:+ String ":" rest) = prefix.
Proof. intros Hnot. unfold beforeColon. by rewrite split_before. Qed.

Lemma isDigit_not_colon (ds : list ascii) :
  forallb isDigit ds = true → ¬ In ":"%char ds.
Proof.
  induction ds as [|d ds IH]; simpl; [tauto|].
  intros [Hd Hds]%andb_prop [->|Hin]; [done|tauto].
Qed.

Lemma spanDigits_digits (ds : list ascii) :
  forallb isDigit ds = true → spanDigits (string_of_list_ascii ds) = (ds, "").
Proof.
  induction ds as [|d ds IH]; simpl; [done|].
  intros [-> Hds]%andb_prop. by rewrite IH.
Qed.

(** A digit is neither white space nor a sign. *)
Lemma digit_head (d : ascii) (s : string) :
  isDigit d = true → splitSign (trimStart (String d s)) = (false, String d s).
Proof.
  intros Hd. 
  assert (isWhiteSpace d = false ∧ d ≠ "-"%char ∧ d ≠ "+"%char) as (Hw & Hm & Hp).
  { destruct d as [[] [] [] [] [] [] [] []]; vm_compute in Hd; try done;
      repeat split; done. }
  simpl. rewrite Hw. unfold splitSign.
  destruct d as [[] [] [] [] [] [] [] []]; try done.
Qed.

(** Decimal digits of value below 2^53 parse to that integer. *)
Lemma parseInt_digits (ds : list ascii) :
  ds ≠ [] → forallb isDigit ds = true → (digitsValue ds < 2 ^ 53)%N →
  parseInt (string_of_list_ascii ds) = ofInteger (Z.of_N (digitsValue ds)).
Proof.
  intros Hne Hds Hv. unfold parseInt.
  destruct ds as [|d ds]; [done|].
  pose proof Hds as [Hd _]%andb_prop.
  change (string_of_list_ascii (d :: ds)) with (String d (string_of_list_ascii ds)).
  rewrite (digit_head _ _ Hd).
  change (String d (string_of_list_ascii ds)) with (string_of_list_ascii (d :: ds)).
  rewrite (spanDigits_digits _ Hds).
  rewrite round_ratio_integer by done.
  unfold ofInteger. destruct (Z.ltb_spec (Z.of_N (digitsValue (d :: ds))) 0); [lia|].
  by rewrite Zabs2N.id.
Qed.
End RankFacts.

Section Rank.
Import JSString JSNumber JSArray Parser Decoder.

(** The rank of a label that starts with an hour and a colon. *)
Lemma getSortableHour_digits (ds : list ascii) (rest : string) :
  ds ≠ [] → forallb isDigit ds = true → (digitsValue ds < 2 ^ 53)%N →
  getSortableHour (string_of_list_ascii ds +:+ String ":" rest)
  = ofInteger (let hour := Z.of_N (digitsValue ds) in
               if (hour <? 6)%Z then (hour + 24)%Z else hour).
Proof.
  intros Hne Hds Hv. unfold getSortableHour.
  destruct (string_of_list_ascii ds +:+ String ":" rest) as [|c s] eqn:Hs.
  { destruct ds; [done|discriminate]. }
  rewrite <- Hs, beforeColon_prefix.
  2:{ rewrite list_ascii_of_string_of_list_ascii. by apply isDigit_not_colon. }
  rewrite parseInt_digits by done.
  set (h := Z.of_N (digitsValue ds)).
  assert (0 <= h < 2 ^ 53)%Z as Hh.
  { subst h. split; [lia|]. change (2 ^ 53)%Z with (Z.of_N (2 ^ 53)). lia. }
  assert (Hlt : flt (ofInteger h) (of_nat 6) = (h <? 6)%Z).
  { unfold flt, ofInteger, of_nat, signed. pose proof scale_pos.
    destruct (Z.ltb_spec h 0); [lia|].
    destruct (Z.ltb_spec h 6), (Z.ltb_spec (Z.of_N (Z.abs_N h * scale))
                                           (Z.of_N (N.of_nat 6 * scale))); try done; nia. }
  rewrite Hlt. cbv zeta. fold h. destruct (Z.ltb_spec h 6); [|done].
  rewrite of_nat_ofInteger. change (Z.of_nat 24) with 24%Z.
  apply fadd_ofInteger. lia.
Qed.

(** C8.  The time ordering rank of a label: 0 for the empty label;
    otherwise the text before the first colon is read as an integer hour,
    and the rank is the hour plus 24 when the hour is below 6, the hour
    itself when not.  So a label that starts with the digits of an hour h
    and a colon has rank h + 24 or h, and labels that start with 05:00,
    06:00 and 23:00 have ranks 29, 6 and 23. *)
Theorem getSortableHour_rank :
  getSortableHour "" = zero
  ∧ (∀ timeRangeString,
       timeRangeString ≠ "" →
       getSortableHour timeRangeString
       = let hour := parseInt (beforeColon timeRangeString) in
         if flt hour (of_nat 6) then fadd hour (of_nat 24) else hour)
  ∧ (∀ prefix rest,
       ¬ In ":"%char (list_ascii_of_string prefix) →
       beforeColon (prefix +:+ String ":" rest) = prefix)
  ∧ (∀ ds rest,
       ds ≠ [] → forallb isDigit ds = true → (digitsValue ds < 2 ^ 53)%N →
       getSortableHour (string_of_list_ascii ds +:+ String ":" rest)
       = ofInteger (let hour := Z.of_N (digitsValue ds) in
                    if (hour <? 6)%Z then (hour + 24)%Z else hour))
  ∧ (∀ rest, getSortableHour ("05:00" +:+ rest) = of_nat 29)
  ∧ (∀ rest, getSortableHour ("06:00" +:+ rest) = of_nat 6)
  ∧ (∀ rest, getSortableHour ("23:00" +:+ rest) = of_nat 23).
Proof.
  split; [reflexivity|].
  split. { intros [|c s] Hne; [done|reflexivity]. }
  split; [exact beforeColon_prefix|].
  split; [exact getSortableHour_digits|].
  split; [|split]; intros rest.
  - rewrite of_nat_ofInteger.
    by apply (getSortableHour_digits ["0"; "5"]%char ("00" +:+ rest)).
  - rewrite of_nat_ofInteger.
    by apply (getSortableHour_digits ["0"; "6"]%char ("00" +:+ rest)).
  - rewrite of_nat_ofInteger.
    by apply (getSortableHour_digits ["2"; "3"]%char ("00" +:+ rest)).
Qed.

Lemma getSortableHour_rank_witness :
  getSortableHour "14:00-15:00" = ofInteger 14
  ∧ getSortableHour "03:00-04:00" = ofInteger 27
  ∧ beforeColon "14:00-15:00" = "14".
Proof.
  destruct getSortableHour_rank as (_ & _ & Hbefore & Hdigits & _).
  split; [|split].
  - apply (Hdigits ["1"; "4"]%char "00-15:00"); [done|reflexivity|reflexivity].
  - apply (Hdigits ["0"; "3"]%char "00-04:00"); [done|reflexivity|reflexivity].
  - apply (Hbefore "14" "00-15:00"). simpl. intros [H|[H|[]]]; discriminate.
Defined.
End Rank.

(** ** Graphs *)

Section Graphs.
Import JSString JSNumber JSArray Parser Decoder Specification.

Lemma Sorted_impl {A : Type} (R R' : A → A → Prop) (l : list A) :
  (∀ a b, R a b → R' a b) → Sorted R l → Sorted R' l.
Proof.
  intros Himpl. induction 1 as [|a l Hs IH Hhd]; constructor; [done|].
  destruct Hhd; constructor; auto.
Qed.

Lemma greater_compareTuples (a b : Tuple) :
  greater compareTuples a b = flt (rank b) (rank a).
Proof. unfold greater, compareTuples, rank. apply flt_zero_fsub. Qed.

(** The sort of the graphs is the stable sort by rank. *)
Lemma sort_StableSortByRank (samples : list Tuple) :
  StableSortByRank samples (sort compareTuples samples).
Proof.
  assert (Hsorted : Sorted (fun a b => flt (rank b) (rank a) = false)
                           (sort compareTuples samples)).
  { apply (Sorted_impl (fun a b => greater compareTuples a b = false)).
    - intros a b. by rewrite greater_compareTuples.
    - apply sort_Sorted. intros x y. rewrite !greater_compareTuples. apply flt_asym. }
  split; [apply sort_Permutation|]. split; [done|]. split.
  - intros Hnum.
    apply (Sorted_StronglySorted_on _ (fun t => isNaN (rank t) = false)); [| |done].
    + intros x y z Hx Hy Hz Hxy Hyz. by apply (flt_not_trans _ (rank y)).
    + by rewrite <- (sort_Permutation compareTuples samples).
  - intros r. apply sort_filter. intros x y Hx%bool_decide_eq_true Hy%bool_decide_eq_true.
    rewrite greater_compareTuples, Hx, Hy. apply flt_irrefl.
Qed.

End Graphs.

(** ** Items *)

Section Items.
Import JSString JSNumber JSArray Parser Decoder Specification.

Lemma lineItem_elem_of (lines : list string) (line itemName : string) :
  line ∈ lines → lineItem line = Some itemName → itemName ∈ itemNames lines.
Proof. intros Hin Hitem. unfold itemNames. rewrite list_elem_of_omap. eauto. Qed.

Lemma numericSamples_no_record (lines : list string) (j s : string) :
  (∀ line r, line ∈ lines → decode line = Some r → recordItem r ≠ j) →
  numericSamples lines j s = [].
Proof.
  intros Hnone. apply elem_of_nil_inv. intros sample.
  unfold numericSamples. rewrite list_elem_of_omap. intros (line & Hin & Hs).
  unfold numericSample in Hs.
  destruct (decode line) as [[tr i' sn v|]|] eqn:Hd; try done.
  case_bool_decide as Heq; [|done]. destruct Heq as [-> _].
  by destruct (Hnone line _ Hin Hd).
Qed.

Lemma tableRecords_no_record (lines : list string) (j t : string) :
  (∀ line r, line ∈ lines → decode line = Some r → recordItem r ≠ j) →
  tableRecords lines j t = [].
Proof.
  intros Hnone. apply elem_of_nil_inv. intros record.
  unfold tableRecords. rewrite list_elem_of_omap. intros (line & Hin & Hs).
  unfold tableRecord in Hs.
  destruct (decode line) as [[|tr i' tn k cols]|] eqn:Hd; try done.
  case_bool_decide as Heq; [|done]. destruct Heq as [-> _].
  by destruct (Hnone line _ Hin Hd).
Qed.

(** An item no record of which decodes is in the report with nothing in it. *)
Lemma organize_emptyItem (lines : list string) (j : string) :
  j ∈ itemNames lines →
  (∀ line r, line ∈ lines → decode line = Some r → recordItem r ≠ j) →
  organize lines !! j = Some emptyItem.
Proof.
  intros Hj Hnone. apply organize_is_Some in Hj as [item Hitem].
  rewrite Hitem. f_equal.
  pose proof (organize_graphAt lines j) as Hg.
  pose proof (organize_standardTableAt lines j) as Hst.
  pose proof (organize_pivotTableAt lines j) as Hpt.
  unfold graphAt, standardTableAt, pivotTableAt in *. rewrite Hitem in *. simpl in *.
  destruct item as [g st pt]. unfold emptyItem. simpl in *. f_equal.
  - apply map_eq. intros s. by rewrite Hg, numericSamples_no_record, lookup_empty.
  - apply map_eq. intros t. by rewrite Hst, lookup_empty.
  - apply map_eq. intros t. by rewrite Hpt, tableRecords_no_record, lookup_empty.
Qed.

Lemma lookup_constant_map (names : list string) (item : ItemData) (j : string) :
  (list_to_map ((fun name => (name, item)) <$> names) : gmap string ItemData) !! j
  = if bool_decide (j ∈ names) then Some item else None.
Proof.
  induction names as [|name names IH].
  - rewrite fmap_nil, list_to_map_nil, lookup_empty.
    by rewrite bool_decide_false by set_solver.
  - rewrite fmap_cons, list_to_map_cons, lookup_insert.
    destruct (decide (name = j)) as [->|Hn].
    + by rewrite bool_decide_true by set_solver.
    + rewrite IH. destruct (decide (j ∈ names)).
      * by rewrite !bool_decide_true by set_solver.
      * by rewrite !bool_decide_false by set_solver.
Qed.

Lemma itemNames_short_lines (lines : list string) :
  Forall (fun line => (length (split ";" line) < 5)%nat) lines → itemNames lines = [].
Proof.
  intros Hshort. apply elem_of_nil_inv. intros name.
  unfold itemNames. rewrite list_elem_of_omap. intros (line & Hin & Hitem).
  rewrite Forall_forall in Hshort. specialize (Hshort line Hin).
  unfold lineItem in Hitem.
  destruct (Nat.leb_spec 5 (length (split ";" line))); [lia|done].
Qed.





End Items.

(** ** Tables *)

Section Tables.
Import JSString JSNumber JSArray Parser Decoder Specification.




(** C3.  The three lines of the Backlog table of Q1 give the pivot table
    with headers Column 1, Total, 08:00-09:00, 09:00-10:00 and the rows
    TeamA 8 5 3 and TeamB 7 7 0, in that order. *)
Theorem backlog_pivot_table :
  pivotTableAt
    (parseAndOrganizeData
       (joinLines ["08:00-09:00;Q1;tabla;Backlog;1;TeamA;5";
                   "09:00-10:00;Q1;tabla;Backlog;1;TeamA;3";
                   "08:00-09:00;Q1;tabla;Backlog;1;TeamB;7"]))
    "Q1" "Backlog"
  = Some {| headers := ["Column 1"; "Total"; "08:00-09:00"; "09:00-10:00"];
            pivotedRows := [["TeamA"; "8"; "5"; "3"]; ["TeamB"; "7"; "7"; "0"]] |}.
Proof. by vm_compute. Qed.
End Tables.

(** ** Pivot tables *)

Section PivotShape.
Import JSString JSNumber JSArray Parser Decoder Specification.

(** The guard of line 133. *)
Lemma pivotTable_skipped (tableData : RawTable) (row0 : TableRow) (rest : list TableRow) :
  rawRows tableData = row0 :: rest →
  fge (groupingColumnIndexOf tableData) (of_nat (valueColumnIndexOf row0))
  || flt (groupingColumnIndexOf tableData) zero = true →
  pivotTable tableData = None.
Proof. intros Hrows Hguard. unfold pivotTable. by rewrite Hrows, Hguard. Qed.

(** C6.  A table whose grouping column index, the key index of its first
    record minus 1, is at or past its value column index, the last column
    index of its first row, or is negative, has no pivot table in the
    report.  So it is for a table whose first record has key index 5 and
    only 4 columns. *)
Theorem misplaced_key_index_gives_no_pivot_table :
  (∀ rawData itemName tableName keyColumnIndex row0 records,
     tableRecords (rawLines rawData) itemName tableName
     = (keyColumnIndex, row0) :: records →
     fge (fsub keyColumnIndex (of_nat 1)) (of_nat (length (columns row0) - 1))
     || flt (fsub keyColumnIndex (of_nat 1)) zero = true →
     pivotTableAt (parseAndOrganizeData rawData) itemName tableName = None)
  ∧ (∀ rawData itemName tableName row0 records,
       tableRecords (rawLines rawData) itemName tableName
       = (parseInt "5", row0) :: records →
       length (columns row0) = 4%nat →
       pivotTableAt (parseAndOrganizeData rawData) itemName tableName = None).
Proof.
  assert (Hskip : ∀ rawData itemName tableName keyColumnIndex row0 records,
     tableRecords (rawLines rawData) itemName tableName
     = (keyColumnIndex, row0) :: records →
     fge (fsub keyColumnIndex (of_nat 1)) (of_nat (length (columns row0) - 1))
     || flt (fsub keyColumnIndex (of_nat 1)) zero = true →
     pivotTableAt (parseAndOrganizeData rawData) itemName tableName = None).
  { intros rawData j t k row0 records Hrecords Hguard.
    unfold parseAndOrganizeData. rewrite organize_pivotTableAt, Hrecords. simpl.
    by eapply pivotTable_skipped. }
  split; [done|].
  intros rawData j t row0 records Hrecords Hlen.
  apply (Hskip _ _ _ _ _ _ Hrecords). rewrite Hlen. by vm_compute.
Qed.

Lemma misplaced_key_index_witness :
  pivotTableAt
    (parseAndOrganizeData
       (joinLines ["08:00-09:00;Q1;tabla;Backlog;5;TeamA;North;Open;5";
                   "09:00-10:00;Q1;tabla;Backlog;1;TeamA;North;Open;3"]))
    "Q1" "Backlog" = None
  ∧ pivotTableAt
      (parseAndOrganizeData
         (joinLines ["08:00-09:00;Q1;tabla;Backlog;4;TeamA;North;Open;5"]))
      "Q1" "Backlog" = None.
Proof.
  destruct misplaced_key_index_gives_no_pivot_table as [Hskip Hfive]. split.
  - apply (Hfive _ _ _ (mkTableRow "08:00-09:00" ["TeamA"; "North"; "Open"; "5"])
                 [(parseInt "1", mkTableRow "09:00-10:00" ["TeamA"; "North"; "Open"; "3"])]).
    + vm_compute. reflexivity.
    + reflexivity.
  - apply (Hskip _ _ _ (parseInt "4")
                 (mkTableRow "08:00-09:00" ["TeamA"; "North"; "Open"; "5"]) []).
    + vm_compute. reflexivity.
    + vm_compute. reflexivity.
Defined.

Lemma textColumns_length (g : number) (k : option string) (others : list string)
      (n i j : nat) :
  length (textColumns g k others n i j) = n.
Proof.
  revert i j. induction n as [|n IH]; intros i j; [done|].
  cbn [textColumns]. destruct (feq (of_nat i) g); cbn [length]; by rewrite IH.
Qed.

Lemma textColumnHeaders_length (n : nat) : length (textColumnHeaders n) = n.
Proof. unfold textColumnHeaders. by rewrite length_map, length_seq. Qed.

Lemma newRow_length (g : number) (n : nat) (times : list string)
      (entry : option string * Aggregate) :
  length (newRow g n times entry) = (n + 1 + length times)%nat.
Proof.
  destruct entry as [k data]. unfold newRow.
  rewrite !length_app, textColumns_length, length_map. simpl. lia.
Qed.

(** The Set of time ranges does not depend on the Map next to it. *)
Lemma aggregateRow_times (g : number) (v : nat) (acc : AggregatedData * list string)
      (row : TableRow) :
  (aggregateRow g v acc row).2 = setAdd (timeRange row) acc.2.
Proof. by destruct acc. Qed.

Lemma setAdd_spec (x : string) (l : list string) :
  NoDup l → NoDup (setAdd x l) ∧ ∀ y, y ∈ setAdd x l ↔ y ∈ l ∨ y = x.
Proof.
  intros Hl. unfold setAdd. case_bool_decide as Hx.
  - split; [done|]. intros y. split; [by left|]. intros [Hy| ->]; done.
  - split.
    + apply NoDup_app. split; [done|]. split; [|apply NoDup_singleton].
      intros y Hy ->%list_elem_of_singleton. done.
    + intros y. by rewrite elem_of_app, list_elem_of_singleton.
Qed.

(** The time ranges of a table: each one once. *)
Lemma aggregate_times (g : number) (v : nat) (tableRows : list TableRow)
      (acc : AggregatedData * list string) :
  NoDup acc.2 →
  NoDup (fold_left (aggregateRow g v) tableRows acc).2
  ∧ ∀ y, y ∈ (fold_left (aggregateRow g v) tableRows acc).2
         ↔ y ∈ acc.2 ∨ y ∈ map timeRange tableRows.
Proof.
  revert acc. induction tableRows as [|row tableRows IH]; intros acc Hacc.
  - simpl. split; [done|]. intros y. rewrite elem_of_nil. tauto.
  - simpl fold_left.
    destruct (setAdd_spec (timeRange row) acc.2 Hacc) as [Hnd Hadd].
    rewrite <- aggregateRow_times with (g := g) (v := v) in Hnd, Hadd.
    destruct (IH _ Hnd) as [Hnd' Hin]. split; [done|].
    intros y. rewrite Hin, Hadd. simpl map. rewrite elem_of_cons. naive_solver.
Qed.
End PivotShape.

Section PivotRows.
Import JSString JSNumber JSArray Parser Decoder Specification.

(** What an emitted pivot table is made of. *)
Lemma pivotTable_Some (tableData : RawTable) (pivot : PivotTableData) :
  pivotTable tableData = Some pivot →
  ∃ row0 rest,
    rawRows tableData = row0 :: rest
    ∧ fge (groupingColumnIndexOf tableData) (of_nat (valueColumnIndexOf row0)) = false
    ∧ flt (groupingColumnIndexOf tableData) zero = false
    ∧ headers pivot
      = textColumnHeaders (valueColumnIndexOf row0) ++ ["Total"]
          ++ sort compareTimeRanges
                  (aggregate (groupingColumnIndexOf tableData)
                             (valueColumnIndexOf row0) (rawRows tableData)).2
    ∧ pivotedRows pivot
      = map (map renderCell)
            (pivotCells (groupingColumnIndexOf tableData)
                        (valueColumnIndexOf row0) (rawRows tableData)).
Proof.
  unfold pivotTable. destruct (rawRows tableData) as [|row0 rest] eqn:Hrows; [done|].
  destruct (fge _ _) eqn:Hge; [done|]. destruct (flt _ _) eqn:Hlt; [done|].
  simpl. intros [= <-]. by exists row0, rest.
Qed.

Lemma pivotCells_lengths (g : number) (v : nat) (tableRows : list TableRow) :
  Forall (fun row =>
            length row
            = (v + 1 + length (sort compareTimeRanges (aggregate g v tableRows).2))%nat)
         (pivotCells g v tableRows).
Proof.
  unfold pivotCells. destruct (aggregate g v tableRows) as [agg times]. simpl.
  apply Forall_forall. intros row [entry [<- _]]%list_elem_of_In%in_map_iff.
  apply newRow_length.
Qed.

Lemma tableOfRecords_Some (records : list (number * TableRow)) (tableData : RawTable) :
  tableOfRecords records = Some tableData →
  ∃ k row0 rest,
    records = (k, row0) :: rest
    ∧ keyIndex tableData = k
    ∧ rawRows tableData = map snd records.
Proof.
  destruct records as [|[k row0] rest]; [done|]. simpl. intros [= <-].
  by exists k, row0, rest.
Qed.

(** C9.  In every pivot table of the report, every row is as long as the
    headers: one header per text column (as many as the index of the value
    column), then Total, then one per distinct time range of the table; and
    every cell of every row is a rendered string. *)
Theorem pivot_rows_match_headers
        (rawData itemName tableName : string) (pivot : PivotTableData) :
  pivotTableAt (parseAndOrganizeData rawData) itemName tableName = Some pivot →
  Forall (fun row => length row = length (headers pivot)) (pivotedRows pivot)
  ∧ (∃ cells : list (list Cell), pivotedRows pivot = map (map renderCell) cells)
  ∧ ∃ keyColumnIndex row0 records sortedTimeRanges,
      tableRecords (rawLines rawData) itemName tableName
      = (keyColumnIndex, row0) :: records
      ∧ headers pivot
        = textColumnHeaders (length (columns row0) - 1) ++ ["Total"] ++ sortedTimeRanges
      ∧ length (textColumnHeaders (length (columns row0) - 1))
        = (length (columns row0) - 1)%nat
      ∧ Permutation sortedTimeRanges
          (remove_dups (map (fun record => timeRange record.2)
                            ((keyColumnIndex, row0) :: records)))
      ∧ length (headers pivot)
        = (length (columns row0) - 1 + 1
           + length (remove_dups (map (fun record => timeRange record.2)
                                      ((keyColumnIndex, row0) :: records))))%nat.
Proof.
  unfold parseAndOrganizeData. rewrite organize_pivotTableAt.
  destruct (tableOfRecords _) as [tableData|] eqn:Htable; [|done]. simpl.
  intros Hpivot.
  apply tableOfRecords_Some in Htable as (k & row0 & rest & Hrecords & Hk & Hrows).
  apply pivotTable_Some in Hpivot as (row0' & rest' & Hrows' & _ & _ & Hh & Hr).
  rewrite Hrows, Hrecords in Hrows'. simpl in Hrows'. injection Hrows' as <- <-.
  set (g := groupingColumnIndexOf tableData) in *.
  set (v := valueColumnIndexOf row0) in *.
  set (times := (aggregate g v (rawRows tableData)).2) in *.
  assert (Htimes : Permutation (sort compareTimeRanges times)
            (remove_dups (map (fun record : number * TableRow => timeRange record.2)
                              ((k, row0) :: rest)))).
  { rewrite <- sort_Permutation.
    destruct (aggregate_times g v (rawRows tableData) ([], [])) as [Hnd Hin].
    { constructor. }
    apply NoDup_Permutation; [done|apply NoDup_remove_dups|].
    intros y. fold (aggregate g v (rawRows tableData)) in Hin. fold times in Hin.
    rewrite Hin, elem_of_remove_dups, Hrows, Hrecords, elem_of_nil.
    rewrite !list_elem_of_In, !in_map_iff. split.
    - intros [[]|(row & <- & (record & <- & Hrec)%in_map_iff)]. by exists record.
    - intros (record & <- & Hrec). right. exists record.2. split; [done|].
      apply in_map_iff. by exists record. }
  assert (Hlen : length (headers pivot) = (v + 1 + length (sort compareTimeRanges times))%nat).
  { rewrite Hh, !length_app, textColumnHeaders_length. simpl. lia. }
  split; [|split].
  - rewrite Hr, Hlen. apply Forall_forall.
    intros row [cells [<- Hcells]]%list_elem_of_In%in_map_iff.
    rewrite length_map.
    pose proof (pivotCells_lengths g v (rawRows tableData)) as Hall.
    rewrite Forall_forall in Hall. by apply Hall, list_elem_of_In.
  - by eexists.
  - exists k, row0, rest, (sort compareTimeRanges times).
    split; [done|]. split; [done|]. split; [apply textColumnHeaders_length|].
    split; [done|]. rewrite Hlen. by rewrite (Permutation_length Htimes).
Qed.

Lemma pivot_rows_match_headers_witness :
  Forall (fun row => length row = 5%nat)
         [["North"; "TeamA"; "7"; "7"; "0"]; ["South"; "TeamB"; "0"; "0"; "0"]].
Proof.
  apply (pivot_rows_match_headers
           (joinLines ["08:00-09:00;Q1;tabla;Backlog;2;North;TeamA;5";
                       "05:00-06:00;Q1;tabla;Backlog;2;South;TeamB;x";
                       "08:00-09:00;Q1;tabla;Backlog;2;North;TeamA;2"])
           "Q1" "Backlog"
           {| headers := ["Column 1"; "Column 2"; "Total"; "08:00-09:00"; "05:00-06:00"];
              pivotedRows := [["North"; "TeamA"; "7"; "7"; "0"];
                              ["South"; "TeamB"; "0"; "0"; "0"]] |}).
  vm_compute. reflexivity.
Defined.
End PivotRows.

(** ** Values that do not parse *)

Section ParseFailures.
Import JSString JSNumber JSArray Parser Decoder Specification.

Lemma unparsable_numero_decode (line timeRange itemName seriesName valueStr : string) :
  split ";" line = [timeRange; itemName; "numero"; seriesName; valueStr] →
  isNaN (parseFloat valueStr) = true →
  decode line = None.
Proof. intros Hsplit Hnan. unfold decode. rewrite Hsplit. cbn. by rewrite Hnan. Qed.

Lemma numericSamples_skip (before after : list string) (line j s : string) :
  decode line = None →
  numericSamples (before ++ line :: after) j s = numericSamples (before ++ after) j s.
Proof.
  intros Hd. unfold numericSamples. rewrite !omap_app. f_equal.
  change (line :: after) with ([line] ++ after). rewrite omap_app.
  cbn. unfold numericSample. by rewrite Hd.
Qed.

Lemma feq_of_nat_index (m : N) (v : nat) :
  feq (Fin false m) (of_nat v) = false → (m mod scale = 0)%N →
  N.to_nat (m / scale) ≠ v.
Proof.
  intros Hfeq Hmod Hv. pose proof scale_pos as Hs.
  assert (Hq : (m / scale)%N = N.of_nat v) by lia.
  assert (Hm : m = (N.of_nat v * scale)%N).
  { pose proof (N.div_mod m scale) as Hdm. rewrite Hmod, Hq in Hdm.
    rewrite Hdm at 1 by lia. rewrite N.add_0_r. apply N.mul_comm. }
  unfold feq, of_nat, signed in Hfeq. subst m.
  by rewrite Z.eqb_refl in Hfeq.
Qed.

(** Writing the value column does not move the grouping column. *)
Lemma at_number_insert_ne (l : list string) (g : number) (v : nat) (x : string) :
  feq g (of_nat v) = false → at_number (<[v := x]> l) g = at_number l g.
Proof.
  intros Hfeq. destruct g as [| |s m]; try done. unfold at_number.
  destruct (N.eqb_spec m 0) as [->|Hm].
  - apply list_lookup_insert_ne. intros ->.
    unfold feq, of_nat in Hfeq. rewrite N.mul_0_l, !signed_0 in Hfeq. done.
  - destruct s; [done|].
    destruct (N.eqb_spec (m mod scale) 0) as [Hmod|]; [|done].
    apply list_lookup_insert_ne. intros Heq.
    by apply (feq_of_nat_index _ _ Hfeq Hmod).
Qed.

Lemma filterIndex_insert (keep : nat → bool) (i v : nat) (x : string) (l : list string) :
  keep (i + v)%nat = false →
  filterIndex keep i (<[v := x]> l) = filterIndex keep i l.
Proof.
  revert i v. induction l as [|y l IH]; intros i v Hkeep; [done|].
  destruct v as [|v]; simpl.
  - by rewrite Nat.add_0_r in Hkeep; rewrite Hkeep.
  - rewrite IH; [done|]. by rewrite <- Nat.add_succ_comm in Hkeep.
Qed.

Lemma orZero_parseFloat_0 : orZero (parseFloat "0") = zero.
Proof. by vm_compute. Qed.

(** A row whose value does not parse aggregates as the row with value "0". *)
Lemma aggregateRow_zeroUnparsable (g : number) (v : nat)
      (acc : AggregatedData * list string) (row : TableRow) :
  feq g (of_nat v) = false →
  aggregateRow g v acc (zeroUnparsable v row) = aggregateRow g v acc row.
Proof.
  intros Hfeq. unfold zeroUnparsable.
  destruct (columns row !! v) as [valueStr|] eqn:Hv; [|done].
  destruct (parseFloat valueStr) eqn:Hparse; try done. cbn [isNaN].
  destruct acc as [agg times]. unfold aggregateRow. cbn [columns timeRange].
  rewrite at_number_insert_ne by done.
  rewrite list_lookup_insert_eq by (by eapply lookup_lt_Some).
  rewrite Hv. unfold stringOf, default, id.
  rewrite orZero_parseFloat_0, Hparse.
  rewrite filterIndex_insert; [done|].
  cbn [Nat.add]. rewrite Nat.eqb_refl. by rewrite andb_false_r.
Qed.

Lemma aggregate_zeroUnparsable (g : number) (v : nat) (tableRows : list TableRow) :
  feq g (of_nat v) = false →
  aggregate g v (map (zeroUnparsable v) tableRows) = aggregate g v tableRows.
Proof.
  intros Hfeq. unfold aggregate. generalize (([], []) : AggregatedData * list string).
  induction tableRows as [|row tableRows IH]; intros acc; [done|].
  cbn [map fold_left]. by rewrite aggregateRow_zeroUnparsable, IH.
Qed.

Lemma zeroUnparsable_length (v : nat) (row : TableRow) :
  valueColumnIndexOf (zeroUnparsable v row) = valueColumnIndexOf row.
Proof.
  unfold zeroUnparsable, valueColumnIndexOf.
  destruct (columns row !! v); [|done]. destruct (isNaN _); [|done].
  cbn [columns]. by rewrite length_insert.
Qed.


End ParseFailures.

(** ** Totals of integer values *)

Section IntegerTotals.
Import JSString JSNumber JSArray Parser Decoder Specification.

Local Open Scope Z_scope.

Lemma sumZ_app (l k : list Z) : sumZ (l ++ k) = sumZ l + sumZ k.
Proof. unfold sumZ. induction l as [|z l IH]; simpl; lia. Qed.

Lemma sumAbs_app (l k : list Z) : sumAbs (l ++ k) = sumAbs l + sumAbs k.
Proof. unfold sumAbs. induction l as [|z l IH]; simpl; lia. Qed.

Lemma sumAbs_nonneg (l : list Z) : 0 <= sumAbs l.
Proof. unfold sumAbs. induction l as [|z l IH]; simpl; lia. Qed.

Lemma sumZ_le_sumAbs (l : list Z) : Z.abs (sumZ l) <= sumAbs l.
Proof. unfold sumZ, sumAbs. induction l as [|z l IH]; simpl; lia. Qed.

Lemma sumZ_Permutation (l k : list Z) : Permutation l k → sumZ l = sumZ k.
Proof. unfold sumZ. induction 1; simpl; lia. Qed.

Lemma sumAbs_Permutation (l k : list Z) : Permutation l k → sumAbs l = sumAbs k.
Proof. unfold sumAbs. induction 1; simpl; lia. Qed.

Lemma sumAbs_elem (cell : string → Z) (times : list string) (tr : string) :
  tr ∈ times → Z.abs (cell tr) <= sumAbs (map cell times).
Proof.
  unfold sumAbs. induction times as [|x times IH]; intros Hin.
  - by apply elem_of_nil in Hin.
  - apply elem_of_cons in Hin as [->|Hin]; simpl.
    + pose proof (sumAbs_nonneg (map cell times)). unfold sumAbs in *. lia.
    + specialize (IH Hin). lia.
Qed.

(** The cell of one time range raised by [z]. *)
Lemma sum_raise (cell : string → Z) (times : list string) (tr : string) (z : Z) :
  NoDup times → tr ∈ times →
  sumZ (map (fun x => if decide (x = tr) then cell tr + z else cell x) times)
  = sumZ (map cell times) + z
  ∧ sumAbs (map (fun x => if decide (x = tr) then cell tr + z else cell x) times)
    <= sumAbs (map cell times) + Z.abs z.
Proof.
  unfold sumZ, sumAbs.
  induction times as [|x times IH]; intros Hnd Hin.
  - by apply elem_of_nil in Hin.
  - apply NoDup_cons in Hnd as [Hx Hnd]. simpl.
    destruct (decide (x = tr)) as [->|Hne].
    + assert (Hsame : map (fun x => if decide (x = tr) then cell tr + z else cell x) times
                      = map cell times).
      { apply map_ext_in. intros y Hy%list_elem_of_In.
        destruct (decide (y = tr)) as [->|]; done. }
      rewrite Hsame. lia.
    + apply elem_of_cons in Hin as [->|Hin]; [done|].
      destruct (IH Hnd Hin). lia.
Qed.

(** Integers add up without rounding while their magnitudes sum to less
    than 2^53. *)
Lemma fold_fadd_integers (zs : list Z) (a : Z) :
  Z.abs a + sumAbs zs < 2 ^ 53 →
  fold_left fadd (map ofInteger zs) (ofInteger a) = ofInteger (a + sumZ zs).
Proof.
  revert a. unfold sumZ, sumAbs.
  induction zs as [|z zs IH]; intros a Hbound; cbn [map fold_left foldr] in *.
  - by rewrite Z.add_0_r.
  - pose proof (sumAbs_nonneg zs) as Hnn. unfold sumAbs in Hnn.
    rewrite fadd_ofInteger by lia. rewrite IH by lia. f_equal. lia.
Qed.

Lemma sumNumbers_integers (zs : list Z) :
  sumAbs zs < 2 ^ 53 → sumNumbers (map ofInteger zs) = ofInteger (sumZ zs).
Proof.
  intros Hbound. unfold sumNumbers. rewrite <- ofInteger_0.
  rewrite fold_fadd_integers; [done|]. lia.
Qed.

Lemma sumZ_zeros (times : list string) : sumZ (map (fun _ => 0) times) = 0.
Proof. unfold sumZ. induction times; simpl; lia. Qed.

Lemma sumAbs_zeros (times : list string) : sumAbs (map (fun _ => 0) times) = 0.
Proof. unfold sumAbs. induction times; simpl; lia. Qed.

Lemma IntegerEntry_new (times : list string) (others : list string) :
  IntegerEntry times 0 {| otherKeyColumns := others; total := zero; timeData := ∅ |}.
Proof.
  exists (fun _ => 0). cbn [timeData total]. split; [|split; [|split]].
  - intros tr. unfold getOrZero. by rewrite lookup_empty, ofInteger_0.
  - done.
  - by rewrite sumZ_zeros, ofInteger_0.
  - by rewrite sumAbs_zeros.
Qed.

Lemma IntegerEntry_mono (times : list string) (bound bound' : Z) (data : Aggregate) :
  bound <= bound' → IntegerEntry times bound data → IntegerEntry times bound' data.
Proof.
  intros Hle (cell & Hcell & Hout & Htotal & Hbound).
  exists cell. split; [done|]. split; [done|]. split; [done|]. lia.
Qed.

Lemma IntegerEntry_setAdd (times : list string) (tr : string) (bound : Z)
      (data : Aggregate) :
  IntegerEntry times bound data → IntegerEntry (setAdd tr times) bound data.
Proof.
  intros (cell & Hcell & Hout & Htotal & Hbound). unfold setAdd.
  case_bool_decide as Hin; [by exists cell|].
  exists cell. rewrite map_app, sumZ_app, sumAbs_app. cbn [map].
  rewrite (Hout tr Hin). unfold sumZ at 2, sumAbs at 2. cbn [foldr].
  split; [done|]. split; [|split].
  - intros x Hx. apply Hout. intros Hx'. apply Hx, elem_of_app. by left.
  - by rewrite Htotal, !Z.add_0_r.
  - simpl. lia.
Qed.

(** The step of lines 161-162 on an entry, for an integer value. *)
Lemma IntegerEntry_update (times : list string) (tr : string) (bound z : Z)
      (data : Aggregate) :
  NoDup times → tr ∈ times → bound + Z.abs z < 2 ^ 53 →
  IntegerEntry times bound data →
  IntegerEntry times (bound + Z.abs z)
    {| otherKeyColumns := otherKeyColumns data;
       total := fadd (total data) (ofInteger z);
       timeData := <[tr := fadd (getOrZero (timeData data) tr) (ofInteger z)]>
                     (timeData data) |}.
Proof.
  intros Hnd Hin Hlt (cell & Hcell & Hout & Htotal & Hbound).
  pose proof (sumAbs_elem cell times tr Hin) as Hcelltr.
  pose proof (sumZ_le_sumAbs (map cell times)) as Hsum.
  destruct (sum_raise cell times tr z Hnd Hin) as [Hraise Hraiseabs].
  exists (fun x => if decide (x = tr) then cell tr + z else cell x).
  cbn [timeData total]. split; [|split; [|split]].
  - intros x. unfold getOrZero at 1. rewrite lookup_insert.
    destruct (decide (tr = x)) as [->|Hne].
    + rewrite decide_True by done. rewrite Hcell, fadd_ofInteger by lia.
      apply orZero_ofInteger.
    + rewrite decide_False by done. apply Hcell.
  - intros x Hx. destruct (decide (x = tr)) as [->|]; [done|]. by apply Hout.
  - rewrite Hraise, Htotal. apply fadd_ofInteger. lia.
  - lia.
Qed.

Lemma Forall_mapUpdate (P Q : Aggregate → Prop) (k : option string)
      (f : Aggregate → Aggregate) (m : AggregatedData) :
  (∀ e, P e → Q e) → (∀ e, P e → Q (f e)) →
  Forall (fun entry => P entry.2) m → Forall (fun entry => Q entry.2) (mapUpdate k f m).
Proof.
  intros HPQ HPf. induction 1 as [|[k' e] m He Hm IH]; cbn [mapUpdate]; [constructor|].
  case_bool_decide; constructor; cbn in *; auto.
  eapply Forall_impl; [exact Hm|]. intros [? ?]. cbn. auto.
Qed.

(** One row with an integer value keeps the entries integers. *)
Lemma aggregateRow_integers (g : number) (v : nat) (bound z : Z)
      (acc : AggregatedData * list string) (row : TableRow) :
  rowValue v row = ofInteger z →
  bound + Z.abs z < 2 ^ 53 →
  IntegerAggregate bound acc →
  IntegerAggregate (bound + Z.abs z) (aggregateRow g v acc row).
Proof.
  intros Hvalue Hlt (Hnn & Hnd & Hentries). destruct acc as [agg times].
  cbn [fst snd] in *.
  unfold aggregateRow. fold (rowValue v row). rewrite Hvalue.
  destruct (setAdd_spec (timeRange row) times Hnd) as [Hnd' Hin'].
  split; [lia|]. split; cbn [fst snd]; [done|].
  apply (Forall_mapUpdate (IntegerEntry (setAdd (timeRange row) times) bound)).
  - intros e. apply IntegerEntry_mono. lia.
  - intros e. apply IntegerEntry_update; [done| |done].
    apply Hin'. by right.
  - assert (Hold : Forall (fun entry : option string * Aggregate =>
                             IntegerEntry (setAdd (timeRange row) times) bound entry.2) agg).
    { eapply Forall_impl; [exact Hentries|]. intros [? ?]. apply IntegerEntry_setAdd. }
    destruct (mapHas _ agg); [done|].
    apply Forall_app. split; [done|]. constructor; [|constructor]. cbn [snd].
    eapply IntegerEntry_mono; [|apply IntegerEntry_new]. done.
Qed.

(** So do all the rows of a table with integer values. *)
Lemma aggregate_integers (g : number) (v : nat) (tableRows : list TableRow)
      (zs : list Z) (bound : Z) (acc : AggregatedData * list string) :
  Forall2 (fun row z => rowValue v row = ofInteger z) tableRows zs →
  bound + sumAbs zs < 2 ^ 53 →
  IntegerAggregate bound acc →
  IntegerAggregate (bound + sumAbs zs) (fold_left (aggregateRow g v) tableRows acc).
Proof.
  intros Hvalues. revert bound acc.
  induction Hvalues as [|row z tableRows zs Hvalue Hvalues IH]; intros bound acc Hlt Hacc.
  - unfold sumAbs. cbn [foldr fold_left]. by rewrite Z.add_0_r.
  - cbn [fold_left]. unfold sumAbs in *. cbn [foldr] in *.
    pose proof (sumAbs_nonneg zs) as Hnn. unfold sumAbs in Hnn.
    rewrite Z.add_assoc. apply IH; [lia|].
    apply aggregateRow_integers; [done|lia|done].
Qed.

Lemma totalIndex_headers (n : nat) (rest : list string) :
  totalIndex (textColumnHeaders n ++ "Total" :: rest) = n.
Proof.
  unfold textColumnHeaders.
  set (header := fun i : nat => "Column " +:+ toString (of_nat (i + 1))).
  assert (Hheader : ∀ i, String.eqb (header i) "Total" = false) by done.
  clearbody header. generalize 0%nat.
  induction n as [|n IH]; intros start; [done|].
  cbn [seq map app totalIndex]. by rewrite Hheader, IH.
Qed.

(** The rows of a table with integer values: the total is the sum of the
    cells of the time ranges. *)
Lemma pivotCells_integers (g : number) (v : nat) (tableRows : list TableRow)
      (zs : list Z) :
  Forall2 (fun row z => rowValue v row = ofInteger z) tableRows zs →
  sumAbs zs < 2 ^ 53 →
  Forall (fun row : list string =>
            ∃ texts total perTime,
              row = texts ++ toString total :: map toString perTime
              ∧ length texts = v
              ∧ total = sumNumbers perTime)
         (map (map renderCell) (pivotCells g v tableRows)).
Proof.
  intros Hvalues Hbound.
  assert (Hinv : IntegerAggregate (0 + sumAbs zs) (aggregate g v tableRows)).
  { apply aggregate_integers; [done|lia|].
    split; [done|]. split; constructor. }
  unfold pivotCells. destruct (aggregate g v tableRows) as [agg times].
  destruct Hinv as (_ & Hnd & Hentries). cbn [fst snd] in *.
  set (sorted := sort compareTimeRanges times).
  assert (Hperm : Permutation times sorted) by apply sort_Permutation.
  rewrite Forall_forall. intros row Hrow%list_elem_of_In.
  apply in_map_iff in Hrow as (cells & <- & Hcells).
  apply in_map_iff in Hcells as ([k data] & <- & Hentry).
  rewrite Forall_forall in Hentries.
  destruct (Hentries (k, data)) as (cell & Hcell & _ & Htotal & Hb).
  { by apply list_elem_of_In. }
  cbn [snd] in *.
  exists (map renderCell (textColumns g k (otherKeyColumns data) v 0 0)),
         (total data), (map (getOrZero (timeData data)) sorted).
  split; [|split].
  - unfold newRow. rewrite !map_app. cbn [map renderCell app]. by rewrite !map_map.
  - by rewrite length_map, textColumns_length.
  - assert (Hcells : map (getOrZero (timeData data)) sorted
                     = map ofInteger (map cell sorted)).
    { rewrite map_map. by apply map_ext. }
    rewrite Hcells, sumNumbers_integers.
    + rewrite Htotal. f_equal. by apply sumZ_Permutation, Permutation_map.
    + rewrite <- (sumAbs_Permutation (map cell times)) by (by apply Permutation_map).
      lia.
Qed.

(** C4, as amended.  Where the value columns of the rows of a table all
    read as integers whose magnitudes sum to less than 2^53, so that no
    addition rounds, every row of its pivot table is its text columns, then
    the number under Total, then the numbers of the time ranges, and the
    total is the sum of the numbers of the time ranges. *)
Theorem integer_totals_are_sums
        (rawData itemName tableName : string) (pivot : PivotTableData)
        (keyColumnIndex : number) (row0 : TableRow)
        (records : list (number * TableRow)) (zs : list Z) :
  tableRecords (rawLines rawData) itemName tableName
  = (keyColumnIndex, row0) :: records →
  pivotTableAt (parseAndOrganizeData rawData) itemName tableName = Some pivot →
  Forall2 (fun record z =>
             rowValue (length (columns row0) - 1) record.2 = ofInteger z)
          ((keyColumnIndex, row0) :: records) zs →
  sumAbs zs < 2 ^ 53 →
  Forall (fun row : list string =>
            ∃ texts total perTime,
              row = texts ++ toString total :: map toString perTime
              ∧ length texts = totalIndex (headers pivot)
              ∧ total = sumNumbers perTime)
         (pivotedRows pivot).
Proof.
  intros Hrecords Hpivot Hvalues Hbound.
  unfold parseAndOrganizeData in Hpivot.
  rewrite organize_pivotTableAt, Hrecords in Hpivot.
  cbn [tableOfRecords mbind option_bind] in Hpivot.
  apply pivotTable_Some in Hpivot as (row0' & rest & Hrows & _ & _ & Hh & Hr).
  cbn [rawRows map snd] in Hrows. injection Hrows as <- <-.
  rewrite Hh, Hr. cbn [app]. rewrite totalIndex_headers.
  apply pivotCells_integers with (zs := zs); [|done].
  cbn [rawRows]. apply Forall2_fmap_l. exact Hvalues.
Qed.

Lemma integer_totals_are_sums_witness :
  Forall (fun row : list string =>
            ∃ texts total perTime,
              row = texts ++ toString total :: map toString perTime
              ∧ length texts = 1%nat
              ∧ total = sumNumbers perTime)
         [["TeamA"; "8"; "5"; "3"]; ["TeamB"; "7"; "7"; "0"]].
Proof.
  apply (integer_totals_are_sums
           (joinLines ["08:00-09:00;Q1;tabla;Backlog;1;TeamA;5";
                       "09:00-10:00;Q1;tabla;Backlog;1;TeamA;3";
                       "08:00-09:00;Q1;tabla;Backlog;1;TeamB;7"])
           "Q1" "Backlog"
           {| headers := ["Column 1"; "Total"; "08:00-09:00"; "09:00-10:00"];
              pivotedRows := [["TeamA"; "8"; "5"; "3"]; ["TeamB"; "7"; "7"; "0"]] |}
           (parseInt "1") (mkTableRow "08:00-09:00" ["TeamA"; "5"])
           [(parseInt "1", mkTableRow "09:00-10:00" ["TeamA"; "3"]);
            (parseInt "1", mkTableRow "08:00-09:00" ["TeamB"; "7"])]
           [5; 3; 7]).
  - vm_compute. reflexivity.
  - vm_compute. reflexivity.
  - repeat constructor; vm_compute; reflexivity.
  - reflexivity.
Defined.

(** A total that is not the sum of its cells: Infinity and -Infinity in one
    cell give the total NaN, and the cell 0. *)
Lemma infinite_values_break_the_total : ¬ TotalIsSumOfCells.
Proof.
  intros Hclaim.
  specialize (Hclaim
                (joinLines ["08:00;Q1;tabla;Flow;1;TeamA;Infinity";
                            "08:00;Q1;tabla;Flow;1;TeamA;-Infinity"])
                "Q1" "Flow"
                {| headers := ["Column 1"; "Total"; "08:00"];
                   pivotedRows := [["TeamA"; "NaN"; "0"]] |}
                ["TeamA"; "NaN"; "0"]).
  assert (Hread : Some NaN = Some zero); [|discriminate].
  apply Hclaim.
  - vm_compute. reflexivity.
  - cbn [pivotedRows]. apply list_elem_of_here.
Qed.

(** Nor is it with finite values that round: 0.3, 0.2, 0.1 total 0.6, and
    the cells 0.1, 0.2, 0.3 sum to 0.6000000000000001. *)
Lemma rounded_values_break_the_total :
  pivotTableAt
    (parseAndOrganizeData
       (joinLines ["10:00;Q1;tabla;Flow;1;TeamA;0.3";
                   "09:00;Q1;tabla;Flow;1;TeamA;0.2";
                   "08:00;Q1;tabla;Flow;1;TeamA;0.1"]))
    "Q1" "Flow"
  = Some {| headers := ["Column 1"; "Total"; "08:00"; "09:00"; "10:00"];
            pivotedRows := [["TeamA"; "0.6"; "0.1"; "0.2"; "0.3"]] |}
  ∧ toString (sumNumbers (map parseFloat ["0.1"; "0.2"; "0.3"])) = "0.6000000000000001".
Proof. split; vm_compute; reflexivity. Qed.
End IntegerTotals.

(** * Further properties of the parser *)

(** ** The lines of the log *)

Section Lines.
Import JSString JSNumber JSArray Parser Decoder Specification Views.

Lemma split_nonempty (sep : ascii) (s : string) : split sep s ≠ [].
Proof.
  destruct s as [|c s]; [done|]. simpl.
  destruct (Ascii.eqb c sep); [done|]. by destruct (split sep s).
Qed.

Lemma split_join (sep : ascii) (a b : string) :
  split sep (a +:+ String sep b) = split sep a ++ split sep b.
Proof.
  induction a as [|c a IH]; simpl.
  - by rewrite Ascii.eqb_refl.
  - destruct (Ascii.eqb c sep); [by rewrite IH|].
    rewrite IH. pose proof (split_nonempty sep a).
    by destruct (split sep a).
Qed.

Lemma rawLines_join (a b : string) :
  rawLines (a +:+ newline +:+ b) = rawLines a ++ rawLines b.
Proof.
  unfold rawLines.
  change (newline +:+ b) with (String "010"%char b).
  by rewrite split_join, List.filter_app.
Qed.

Lemma trimStart_empty (s : string) : trimStart s = "" → allWhite s = true.
Proof.
  unfold allWhite. induction s as [|c s IH]; simpl; [done|].
  destruct (isWhiteSpace c); [exact IH|done].
Qed.

Lemma trimStart_head (s : string) (c : ascii) (t : string) :
  trimStart s = String c t → isWhiteSpace c = false.
Proof.
  induction s as [|d s IH]; simpl; [done|].
  destruct (isWhiteSpace d) eqn:Hd; [exact IH|]. by intros [= <- _].
Qed.

Lemma trimEnd_empty_head (c : ascii) (t : string) :
  trimEnd (String c t) = "" → isWhiteSpace c = true.
Proof. simpl. destruct (trimEnd t); [|done]. by destruct (isWhiteSpace c). Qed.

Lemma trim_empty_allWhite (s : string) : trim s = "" → allWhite s = true.
Proof.
  unfold trim. intros Htrim. apply trimStart_empty.
  destruct (trimStart s) as [|c t] eqn:Hstart; [done|].
  apply trimEnd_empty_head in Htrim.
  apply trimStart_head in Hstart. congruence.
Qed.

Lemma allWhite_trim (s : string) : allWhite s = true → trim s = "".
Proof.
  unfold allWhite, trim. intros Hs.
  assert (trimStart s = "") as ->; [|done].
  induction s as [|c s IH]; simpl in *; [done|].
  apply andb_prop in Hs as [-> Hs]. by apply IH.
Qed.

(** The pieces of white space are white space. *)
Lemma allWhite_split (sep : ascii) (s : string) :
  allWhite s = true → Forall (fun piece => allWhite piece = true) (split sep s).
Proof.
  unfold allWhite. induction s as [|c s IH]; simpl; intros Hs.
  - by constructor.
  - apply andb_prop in Hs as [Hc Hs]. specialize (IH Hs).
    destruct (Ascii.eqb c sep).
    + by constructor.
    + destruct (split sep s) as [|p ps]; [by repeat constructor; simpl; rewrite Hc|].
      apply Forall_cons in IH as [Hp Hps]. constructor; [|done].
      simpl. by rewrite Hc.
Qed.

Lemma rawLines_blank (blank : string) : trim blank = "" → rawLines blank = [].
Proof.
  intros Hblank%trim_empty_allWhite. unfold rawLines.
  pose proof (allWhite_split "010"%char blank Hblank) as Hpieces.
  induction Hpieces as [|piece pieces Hpiece _ IH]; [done|].
  simpl. by rewrite (allWhite_trim _ Hpiece).
Qed.

(** X2.  The lines of two logs joined by a newline are the lines of the
    first, then the lines of the second; text made of white space only
    gives no line.  So a blank stretch between two logs, before a log or
    after it changes nothing in the report. *)
Theorem blank_text_changes_nothing :
  (∀ a b, rawLines (a +:+ newline +:+ b) = rawLines a ++ rawLines b)
  ∧ (∀ blank, trim blank = "" → rawLines blank = [])
  ∧ (∀ a blank b,
       trim blank = "" →
       parseAndOrganizeData (a +:+ newline +:+ blank +:+ newline +:+ b)
       = organize (rawLines a ++ rawLines b)
       ∧ parseAndOrganizeData (a +:+ newline +:+ blank) = parseAndOrganizeData a
       ∧ parseAndOrganizeData (blank +:+ newline +:+ a) = parseAndOrganizeData a).
Proof.
  split; [exact rawLines_join|]. split; [exact rawLines_blank|].
  intros a blank b Hblank. unfold parseAndOrganizeData.
  rewrite !rawLines_join, (rawLines_blank _ Hblank).
  by rewrite app_nil_r.
Qed.

Lemma blank_text_witness :
  parseAndOrganizeData
    ("08:00;Queue1;numero;Throughput;10" +:+ newline +:+ "  " +:+ newline
       +:+ "09:00;Queue1;numero;Throughput;20")
  = organize (rawLines "08:00;Queue1;numero;Throughput;10"
                ++ rawLines "09:00;Queue1;numero;Throughput;20").
Proof.
  destruct blank_text_changes_nothing as (_ & _ & Hblank).
  by apply (Hblank "08:00;Queue1;numero;Throughput;10" "  "
                   "09:00;Queue1;numero;Throughput;20").
Defined.

Lemma lineItem_spec (line itemName : string) :
  lineItem line = Some itemName
  ↔ (5 ≤ length (split ";" line))%nat ∧ split ";" line !! 1%nat = Some itemName.
Proof.
  unfold lineItem. destruct (Nat.leb_spec 5 (length (split ";" line))).
  - naive_solver.
  - split; [done|]. intros [? _]. lia.
Qed.

End Lines.

(** ** The graphs of the report *)

Section GraphInvariants.
Import JSString JSNumber JSArray Parser Decoder Specification Views.

Lemma decode_Numeric_value (line timeRange itemName seriesName : string) (value : number) :
  decode line = Some (Numeric timeRange itemName seriesName value) →
  isNaN value = false.
Proof.
  unfold decode.
  destruct (split ";" line) as [|a [|b [|c [|d [|e more]]]]]; simpl; try done.
  destruct (String.eqb c "numero").
  - destruct more; [|done]. destruct (isNaN (parseFloat e)) eqn:Hnan; [done|].
    by intros [= _ _ _ <-].
  - destruct (String.eqb c "tabla"); [|done].
    destruct more; [done|]. destruct (isNaN _); [done|]. by destruct (flt _ _).
Qed.

Lemma numericSamples_values (lines : list string) (j s : string) :
  Forall (fun sample => isNaN (tupleValue sample) = false) (numericSamples lines j s).
Proof.
  apply Forall_forall. intros sample.
  unfold numericSamples. rewrite list_elem_of_omap. intros (line & _ & Hsample).
  unfold numericSample in Hsample.
  destruct (decode line) as [[tr i sn v|]|] eqn:Hd; try done.
  case_bool_decide; [|done]. injection Hsample as <-.
  by apply decode_Numeric_value in Hd.
Qed.

(** X3.  A graph of the report has at least one point, one label per
    value, as many points as the item and series have valid numeric
    records, no value that is NaN, and nothing left of the temporary list
    of tuples. *)
Theorem graphs_have_points
        (rawData itemName seriesName : string) (graph : GraphData) :
  graphAt (parseAndOrganizeData rawData) itemName seriesName = Some graph →
  labels graph ≠ []
  ∧ length (labels graph) = length (values graph)
  ∧ length (labels graph)
    = length (numericSamples (rawLines rawData) itemName seriesName)
  ∧ Forall (fun value => isNaN value = false) (values graph)
  ∧ tuples graph = None.
Proof.
  unfold parseAndOrganizeData. rewrite organize_graphAt.
  pose proof (numericSamples_values (rawLines rawData) itemName seriesName) as Hvalues.
  destruct (numericSamples (rawLines rawData) itemName seriesName)
    as [|sample samples] eqn:Hsamples; [done|].
  pose proof (sort_Permutation compareTuples (sample :: samples)) as Hperm.
  pose proof (Permutation_length Hperm) as Hlen.
  unfold graphOfSamples, sortGraph. cbn [fmap option_fmap option_map tuples].
  generalize dependent (sort compareTuples (sample :: samples)).
  intros sorted Hperm Hlen [= <-]. cbn [labels values tuples].
  split; [|split; [|split; [|split]]].
  - destruct sorted; [done|]. done.
  - by rewrite !length_map.
  - by rewrite length_map.
  - rewrite Hperm in Hvalues. apply Forall_forall.
    intros value [t [<- Ht]]%list_elem_of_In%in_map_iff.
    rewrite Forall_forall in Hvalues. by apply Hvalues, list_elem_of_In.
  - done.
Qed.

Lemma graphs_have_points_witness :
  labels {| labels := ["08:00-09:00"; "09:00-10:00"];
            values := [of_nat 10; of_nat 20];
            tuples := None |} ≠ [].
Proof.
  apply (graphs_have_points
           (joinLines ["08:00-09:00;Queue1;numero;Throughput;10";
                       "a;b";
                       "09:00-10:00;Queue1;numero;Throughput;20";
                       "09:00-10:00;Queue1;numero;Throughput;NaNtext"])
           "Queue1" "Throughput").
  vm_compute. reflexivity.
Defined.
End GraphInvariants.

(** ** The order of the hours *)

Section HourOrder.
Import JSString JSNumber JSArray Parser Decoder Specification Views.

Lemma flt_ofInteger (a b : Z) : flt (ofInteger a) (ofInteger b) = (a <? b)%Z.
Proof.
  unfold flt, ofInteger, signed. pose proof scale_pos.
  destruct (Z.ltb_spec a 0), (Z.ltb_spec b 0), (Z.ltb_spec a b);
    match goal with |- (?x <? ?y)%Z = _ => destruct (Z.ltb_spec x y) end;
    try done; nia.
Qed.

Lemma compareTimeRanges_greater (a b : string) :
  greater compareTimeRanges a b = flt (getSortableHour b) (getSortableHour a).
Proof. unfold greater, compareTimeRanges. apply flt_zero_fsub. Qed.

(** X7.  Labels that start with an hour of the day and a colon are ordered
    by the place of the hour in the day that starts at 06:00: the
    comparator takes the first label for greater exactly when its hour
    comes later in the sequence 6, 7, ..., 23, 0, 1, ..., 5; two labels of
    the same hour are never one greater than the other. *)
Theorem hours_are_ordered_from_six
        (ds1 ds2 : list ascii) (rest1 rest2 : string) :
  ds1 ≠ [] → forallb isDigit ds1 = true → (digitsValue ds1 < 24)%N →
  ds2 ≠ [] → forallb isDigit ds2 = true → (digitsValue ds2 < 24)%N →
  greater compareTimeRanges
          (string_of_list_ascii ds1 +:+ String ":" rest1)
          (string_of_list_ascii ds2 +:+ String ":" rest2)
  = (dayPosition (Z.of_N (digitsValue ds2)) <? dayPosition (Z.of_N (digitsValue ds1)))%Z.
Proof.
  intros Hne1 Hd1 Hv1 Hne2 Hd2 Hv2.
  rewrite compareTimeRanges_greater.
  rewrite !getSortableHour_digits; try done.
  2,3: (eapply N.lt_trans; [eassumption|reflexivity]).
  rewrite flt_ofInteger. cbv zeta. unfold dayPosition.
  set (h1 := Z.of_N (digitsValue ds1)). set (h2 := Z.of_N (digitsValue ds2)).
  assert (0 <= h1 < 24)%Z by lia. assert (0 <= h2 < 24)%Z by lia.
  assert (Hplace : ∀ h, (0 <= h < 24)%Z →
            ((h + 18) mod 24 = (if (h <? 6)%Z then h + 24 else h) - 6)%Z).
  { intros h Hh. destruct (Z.ltb_spec h 6).
    - rewrite Z.mod_small; lia.
    - replace (h + 18)%Z with (h - 6 + 1 * 24)%Z by lia.
      rewrite Z.mod_add by lia. rewrite Z.mod_small; lia. }
  rewrite !Hplace by done.
  generalize (if (h1 <? 6)%Z then (h1 + 24)%Z else h1).
  generalize (if (h2 <? 6)%Z then (h2 + 24)%Z else h2).
  intros r2 r1.
  destruct (Z.ltb_spec r2 r1), (Z.ltb_spec (r2 - 6) (r1 - 6)); try done; lia.
Qed.

Lemma hours_are_ordered_from_six_witness :
  greater compareTimeRanges "05:00-06:00" "23:00-00:00" = true
  ∧ greater compareTimeRanges "06:00-07:00" "05:00-06:00" = false.
Proof.
  split.
  - by apply (hours_are_ordered_from_six ["0"; "5"]%char ["2"; "3"]%char
                                         "00-06:00" "00-00:00").
  - by apply (hours_are_ordered_from_six ["0"; "6"]%char ["0"; "5"]%char
                                         "00-07:00" "00-06:00").
Defined.
End HourOrder.

(** ** The rows and the headers of a pivot table *)

Section PivotStructure.
Import JSString JSNumber JSArray Parser Decoder Specification Views.

Lemma mapHas_spec (k : option string) (m : AggregatedData) :
  mapHas k m = bool_decide (k ∈ map fst m).
Proof.
  unfold mapHas. induction m as [|[k' e] m IH]; cbn [existsb map fst].
  - by rewrite bool_decide_false by apply not_elem_of_nil.
  - rewrite IH. destruct (decide (k' = k)) as [->|Hne].
    + rewrite (bool_decide_true (k = k)) by done.
      rewrite (bool_decide_true (k ∈ k :: map fst m)) by apply list_elem_of_here.
      done.
    + rewrite (bool_decide_false (k' = k)) by done. cbn [orb].
      apply bool_decide_ext. rewrite elem_of_cons. naive_solver.
Qed.

(** The keys of the Map, each with the passthrough columns kept for it. *)
Local Abbreviation keysAndOthers :=
  (map (fun entry : option string * Aggregate => (entry.1, otherKeyColumns entry.2))).

Lemma mapUpdate_keysAndOthers (k : option string) (f : Aggregate → Aggregate)
      (m : AggregatedData) :
  (∀ e, otherKeyColumns (f e) = otherKeyColumns e) →
  keysAndOthers (mapUpdate k f m) = keysAndOthers m.
Proof.
  intros Hf. induction m as [|[k' e] m IH]; [done|].
  cbn [mapUpdate]. case_bool_decide; cbn [map fst snd].
  - by rewrite Hf.
  - by rewrite IH.
Qed.

Lemma aggregateRow_keysAndOthers (g : number) (v : nat)
      (acc : AggregatedData * list string) (row : TableRow) :
  keysAndOthers (aggregateRow g v acc row).1
  = if bool_decide (groupingValueOf g row ∈ map fst acc.1)
    then keysAndOthers acc.1
    else keysAndOthers acc.1 ++ [(groupingValueOf g row, otherColumnsOf g v row)].
Proof.
  destruct acc as [agg times]. unfold aggregateRow. cbn [fst snd].
  rewrite mapUpdate_keysAndOthers by done.
  rewrite mapHas_spec. fold (groupingValueOf g row).
  case_bool_decide; [done|]. by rewrite map_app.
Qed.

Lemma keysAndOthers_keys (m : AggregatedData) : map fst (keysAndOthers m) = map fst m.
Proof. rewrite map_map. by apply map_ext. Qed.

(** The entries of the Map are the rows that bring a new grouping value,
    in their order, each with its own passthrough columns. *)
Lemma fold_aggregateRow_entries (g : number) (v : nat) (tableRows : list TableRow)
      (acc : AggregatedData * list string) :
  keysAndOthers (fold_left (aggregateRow g v) tableRows acc).1
  = keysAndOthers acc.1
      ++ map (fun row => (groupingValueOf g row, otherColumnsOf g v row))
             (firstRows g (map fst acc.1) tableRows).
Proof.
  revert acc. induction tableRows as [|row tableRows IH]; intros acc.
  - cbn. by rewrite app_nil_r.
  - cbn [fold_left firstRows]. rewrite IH.
    pose proof (aggregateRow_keysAndOthers g v acc row) as Hstep.
    rewrite <- (keysAndOthers_keys (aggregateRow g v acc row).1), Hstep.
    case_bool_decide as Hin.
    + by rewrite keysAndOthers_keys.
    + rewrite map_app, keysAndOthers_keys. cbn [map fst].
      by rewrite <- app_assoc.
Qed.

Lemma aggregate_entries (g : number) (v : nat) (tableRows : list TableRow) :
  keysAndOthers (aggregate g v tableRows).1
  = map (fun row => (groupingValueOf g row, otherColumnsOf g v row))
        (firstRows g [] tableRows).
Proof. unfold aggregate. by rewrite fold_aggregateRow_entries. Qed.

Lemma aggregate_length (g : number) (v : nat) (tableRows : list TableRow) :
  length (aggregate g v tableRows).1 = length (firstRows g [] tableRows).
Proof.
  rewrite <- (length_map (fun entry : option string * Aggregate =>
                            (entry.1, otherKeyColumns entry.2))
                         (aggregate g v tableRows).1).
  by rewrite aggregate_entries, length_map.
Qed.

(** The Set of the time ranges. *)
Lemma fold_aggregateRow_times (g : number) (v : nat) (tableRows : list TableRow)
      (acc : AggregatedData * list string) :
  (fold_left (aggregateRow g v) tableRows acc).2
  = fold_left (fun seen x => setAdd x seen) (map timeRange tableRows) acc.2.
Proof.
  revert acc. induction tableRows as [|row tableRows IH]; intros acc; [done|].
  cbn [fold_left map]. by rewrite IH, aggregateRow_times.
Qed.

Lemma aggregate_firstOccurrences (g : number) (v : nat) (tableRows : list TableRow) :
  (aggregate g v tableRows).2 = firstOccurrences (map timeRange tableRows).
Proof. unfold aggregate, firstOccurrences. by rewrite fold_aggregateRow_times. Qed.

(** *** The rows that come first *)

Lemma firstRows_first (g : number) (seen : list (option string))
      (tableRows : list TableRow) (first : TableRow) :
  first ∈ firstRows g seen tableRows →
  ∃ before after,
    tableRows = before ++ (first :: after)
    ∧ (groupingValueOf g first ∉ seen)
    ∧ (groupingValueOf g first ∉ map (groupingValueOf g) before).
Proof.
  revert seen. induction tableRows as [|row tableRows IH]; intros seen Hin.
  - by apply elem_of_nil in Hin.
  - cbn [firstRows] in Hin. case_bool_decide as Hseen.
    + destruct (IH _ Hin) as (before & after & -> & Hnot & Hbefore).
      exists (row :: before), after. split; [done|]. split; [done|].
      cbn [map]. rewrite not_elem_of_cons. split; [|done].
      intros Heq. apply Hnot. by rewrite Heq.
    + apply elem_of_cons in Hin as [->|Hin].
      * exists [], tableRows. split; [done|]. split; [done|]. apply not_elem_of_nil.
      * destruct (IH _ Hin) as (before & after & -> & Hnot & Hbefore).
        rewrite elem_of_app, list_elem_of_singleton in Hnot.
        exists (row :: before), after. split; [done|]. split; [tauto|].
        cbn [map]. rewrite not_elem_of_cons. split; [|done].
        intros Heq. apply Hnot. by right.
Qed.

Lemma firstRows_keys (g : number) (seen : list (option string))
      (tableRows : list TableRow) :
  NoDup seen →
  NoDup (seen ++ map (groupingValueOf g) (firstRows g seen tableRows))
  ∧ ∀ row, row ∈ tableRows →
           groupingValueOf g row
           ∈ seen ++ map (groupingValueOf g) (firstRows g seen tableRows).
Proof.
  revert seen. induction tableRows as [|row tableRows IH]; intros seen Hnd.
  - cbn. rewrite app_nil_r. split; [done|]. intros row Hrow.
    by apply elem_of_nil in Hrow.
  - cbn [firstRows]. case_bool_decide as Hseen.
    + destruct (IH seen Hnd) as [Hnd' Hall]. split; [done|].
      intros r [->|Hr]%elem_of_cons; [|by apply Hall].
      apply elem_of_app. by left.
    + assert (Hnd1 : NoDup (seen ++ [groupingValueOf g row])).
      { apply NoDup_app. split; [done|]. split; [|apply NoDup_singleton].
        intros x Hx ->%list_elem_of_singleton. done. }
      destruct (IH _ Hnd1) as [Hnd' Hall].
      cbn [map]. rewrite <- app_assoc in Hnd', Hall. cbn [app] in Hnd', Hall.
      split; [done|].
      intros r [->|Hr]%elem_of_cons; [|by apply Hall].
      apply elem_of_app. right. apply list_elem_of_here.
Qed.
End PivotStructure.

Section PivotReport.
Import JSString JSNumber JSArray Parser Decoder Specification Views.

Lemma pivotCells_entries (g : number) (v : nat) (tableRows : list TableRow) :
  pivotCells g v tableRows
  = map (newRow g v (sort compareTimeRanges (aggregate g v tableRows).2))
        (aggregate g v tableRows).1.
Proof. unfold pivotCells. by destruct (aggregate g v tableRows). Qed.

(** The pivot table of the report is the pivot of the records of the table. *)
Lemma pivotTableAt_records (rawData itemName tableName : string)
      (keyColumnIndex : number) (row0 : TableRow) (records : list (number * TableRow)) :
  tableRecords (rawLines rawData) itemName tableName
  = (keyColumnIndex, row0) :: records →
  pivotTableAt (parseAndOrganizeData rawData) itemName tableName
  = pivotTable {| keyIndex := keyColumnIndex; rawRows := row0 :: map snd records |}.
Proof.
  intros Hrecords. unfold parseAndOrganizeData.
  by rewrite organize_pivotTableAt, Hrecords.
Qed.

Lemma pivotTableAt_Some (rawData itemName tableName : string)
      (keyColumnIndex : number) (row0 : TableRow) (records : list (number * TableRow))
      (pivot : PivotTableData) :
  tableRecords (rawLines rawData) itemName tableName
  = (keyColumnIndex, row0) :: records →
  pivotTableAt (parseAndOrganizeData rawData) itemName tableName = Some pivot →
  let g := fsub keyColumnIndex (of_nat 1) in
  let v := (length (columns row0) - 1)%nat in
  let tableRows := row0 :: map snd records in
  fge g (of_nat v) = false
  ∧ flt g zero = false
  ∧ headers pivot
    = textColumnHeaders v ++ ["Total"]
        ++ sort compareTimeRanges (aggregate g v tableRows).2
  ∧ pivotedRows pivot
    = map (map renderCell)
          (map (newRow g v (sort compareTimeRanges (aggregate g v tableRows).2))
               (aggregate g v tableRows).1).
Proof.
  intros Hrecords Hpivot g v tableRows.
  rewrite (pivotTableAt_records _ _ _ _ _ _ Hrecords) in Hpivot.
  apply pivotTable_Some in Hpivot as (row0' & rest' & Hrows & Hge & Hlt & Hh & Hr).
  cbn [rawRows] in Hrows, Hh, Hr. injection Hrows as <- <-.
  unfold groupingColumnIndexOf, valueColumnIndexOf in *. cbn [keyIndex] in *.
  rewrite pivotCells_entries in Hr. done.
Qed.



(** *** The text cells of a row *)

Lemma feq_of_nat (i j : nat) : feq (of_nat i) (of_nat j) = (i =? j)%nat.
Proof.
  unfold feq, of_nat, signed. pose proof scale_pos as Hs.
  destruct (Nat.eqb_spec i j) as [->|Hne].
  - apply Z.eqb_refl.
  - apply Z.eqb_neq. nia.
Qed.

Lemma at_number_of_nat {A : Type} (l : list A) (n : nat) :
  at_number l (of_nat n) = l !! n.
Proof.
  unfold at_number, of_nat. pose proof scale_pos as Hs.
  destruct (N.eqb_spec (N.of_nat n * scale) 0) as [H0|H0].
  - assert (n = 0%nat) as -> by nia. done.
  - rewrite N.Div0.mod_mul, N.eqb_refl, N.div_mul by lia. by rewrite Nat2N.id.
Qed.

(** The passthrough columns of a row are its columns without the grouping
    column and the value column: column [c] comes at position [c], or
    [c - 1] when the grouping column is before it. *)
Lemma filterIndex_passthrough {A : Type} (gi v : nat) (l : list A) (i c : nat) :
  (i ≤ c)%nat → (c < v)%nat → c ≠ gi →
  filterIndex (fun idx => negb (feq (of_nat idx) (of_nat gi)) && negb (idx =? v)%nat)
              i l
    !! (c - i - (if (i <=? gi)%nat && (gi <? c)%nat then 1 else 0))%nat
  = l !! (c - i)%nat.
Proof.
  revert i. induction l as [|x l IH]; intros i Hic Hcv Hcg.
  - by rewrite !lookup_nil.
  - cbn [filterIndex]. rewrite feq_of_nat.
    destruct (Nat.eqb_spec i gi) as [->|Hig]; cbn [negb andb].
    + assert (Hlt : (S gi ≤ c)%nat) by lia.
      specialize (IH (S gi) Hlt Hcv Hcg).
      destruct (Nat.leb_spec (S gi) gi); [lia|]. cbn [andb] in IH.
      destruct (Nat.leb_spec gi gi); [|lia].
      destruct (Nat.ltb_spec gi c); [|lia]. cbn [andb].
      replace (c - gi - 1)%nat with (c - S gi - 0)%nat by lia. rewrite IH.
      replace (c - gi)%nat with (S (c - S gi)) by lia. done.
    + destruct (Nat.eqb_spec i v); [lia|]. cbn [negb].
      destruct (decide (c = i)) as [->|Hci].
      * destruct (Nat.leb_spec i gi), (Nat.ltb_spec gi i); cbn [andb]; try lia;
          by rewrite Nat.sub_diag.
      * assert (Hlt : (S i ≤ c)%nat) by lia.
        specialize (IH (S i) Hlt Hcv Hcg).
        assert (Hidx : (c - i - (if (i <=? gi)%nat && (gi <? c)%nat then 1 else 0)
                        = S (c - S i
                             - (if (S i <=? gi)%nat && (gi <? c)%nat then 1 else 0)))%nat).
        { destruct (Nat.leb_spec i gi), (Nat.leb_spec (S i) gi), (Nat.ltb_spec gi c);
            cbn [andb]; lia. }
        rewrite Hidx. replace (c - i)%nat with (S (c - S i)) by lia.
        exact IH.
Qed.

Lemma otherColumnsOf_lookup (gi v : nat) (row : TableRow) (c : nat) :
  (c < v)%nat → c ≠ gi →
  otherColumnsOf (of_nat gi) v row !! (c - (if (gi <? c)%nat then 1 else 0))%nat
  = columns row !! c.
Proof.
  intros Hcv Hcg. unfold otherColumnsOf.
  pose proof (filterIndex_passthrough gi v (columns row) 0 c) as H.
  rewrite !Nat.sub_0_r in H. cbn [Nat.leb andb] in H. apply H; [lia|done|done].
Qed.

(** The loop of lines 177-183 for a grouping column that is a column
    number. *)
Lemma textColumns_of_nat (gi : nat) (key : option string) (others : list string)
      (n i : nat) :
  textColumns (of_nat gi) key others n i (i - (if (gi <? i)%nat then 1 else 0))
  = map (fun c =>
           if (c =? gi)%nat then keyCell key
           else CString (default "" (others !! (c - (if (gi <? c)%nat then 1 else 0))%nat)))
        (seq i n).
Proof.
  revert i. induction n as [|n IH]; intros i; [done|].
  cbn [textColumns seq map]. rewrite feq_of_nat.
  destruct (Nat.eqb_spec i gi) as [->|Hig].
  - f_equal. rewrite <- IH. f_equal.
    destruct (Nat.ltb_spec gi gi), (Nat.ltb_spec gi (S gi)); lia.
  - f_equal. rewrite <- IH. f_equal.
    destruct (Nat.ltb_spec gi i), (Nat.ltb_spec gi (S i)); lia.
Qed.

Lemma renderCell_keyCell (key : option string) : renderCell (keyCell key) = stringOf key.
Proof. by destruct key. Qed.

(** X5.  When the grouping column is column [gi] of the table, the text
    cells of a pivot row are the columns of the first row of the table with
    its grouping value, later rows with the same value changing none of
    them: text cell [c] is column [c] of that row, the empty string where
    the row has no such column; in the grouping column itself a missing
    value reads "undefined". *)
Theorem pivot_text_cells_are_those_of_the_first_row
        (rawData itemName tableName : string) (keyColumnIndex : number)
        (row0 : TableRow) (records : list (number * TableRow))
        (pivot : PivotTableData) (gi : nat) :
  tableRecords (rawLines rawData) itemName tableName
  = (keyColumnIndex, row0) :: records →
  pivotTableAt (parseAndOrganizeData rawData) itemName tableName = Some pivot →
  fsub keyColumnIndex (of_nat 1) = of_nat gi →
  (gi < length (columns row0) - 1)%nat
  ∧ ∀ i first cells,
      firstRows (of_nat gi) [] (row0 :: map snd records) !! i = Some first →
      pivotedRows pivot !! i = Some cells →
      take (length (columns row0) - 1) cells
      = map (fun c =>
               if (c =? gi)%nat then stringOf (columns first !! c)
               else default "" (columns first !! c))
            (seq 0 (length (columns row0) - 1)).
Proof.
  intros Hrecords Hpivot Hg.
  destruct (pivotTableAt_Some _ _ _ _ _ _ _ Hrecords Hpivot) as (Hge & _ & _ & Hr).
  rewrite Hg in Hge, Hr.
  set (v := (length (columns row0) - 1)%nat) in *.
  set (tableRows := row0 :: map snd records) in *.
  split.
  { unfold fge in Hge. apply orb_false_elim in Hge as [Hlt Hne].
    rewrite feq_of_nat in Hne. rewrite !of_nat_ofInteger, flt_ofInteger in Hlt.
    apply Nat.eqb_neq in Hne. apply Z.ltb_ge in Hlt. lia. }
  intros i first cells Hfirst Hcells.
  rewrite Hr in Hcells.
  apply list_lookup_fmap_Some in Hcells as (row & -> & Hrow).
  apply list_lookup_fmap_Some in Hrow as ([key data] & -> & Hentry).
  assert (Hkey : (key, otherKeyColumns data)
                 = (groupingValueOf (of_nat gi) first,
                    otherColumnsOf (of_nat gi) v first)).
  { pose proof (aggregate_entries (of_nat gi) v tableRows) as Hentries.
    apply (f_equal (fun l => l !! i)) in Hentries.
    rewrite !list_lookup_fmap, Hentry, Hfirst in Hentries.
    cbn [fmap option_fmap option_map fst snd] in Hentries.
    by injection Hentries as -> ->. }
  assert (Hk : key = groupingValueOf (of_nat gi) first) by congruence.
  assert (Hothers : otherKeyColumns data = otherColumnsOf (of_nat gi) v first)
    by congruence.
  unfold newRow. rewrite Hk, Hothers, map_app.
  rewrite take_app_length' by (by rewrite length_map, textColumns_length).
  pose proof (textColumns_of_nat gi (groupingValueOf (of_nat gi) first)
                (otherColumnsOf (of_nat gi) v first) v 0) as Htext.
  change (0 - _)%nat with 0%nat in Htext. rewrite Htext, map_map.
  apply map_ext_in. intros c [_ Hc]%in_seq.
  destruct (Nat.eqb_spec c gi) as [->|Hcg].
  - rewrite renderCell_keyCell. unfold groupingValueOf. by rewrite at_number_of_nat.
  - cbn [renderCell]. rewrite otherColumnsOf_lookup by (lia || done). done.
Qed.

Lemma pivot_text_cells_are_those_of_the_first_row_witness :
  (1 < length (columns (mkTableRow "08:00-09:00" ["North"; "TeamA"; "5"])) - 1)%nat.
Proof.
  apply (pivot_text_cells_are_those_of_the_first_row
           (joinLines ["08:00-09:00;Q1;tabla;Backlog;2;North;TeamA;5";
                       "05:00-06:00;Q1;tabla;Backlog;2;South;TeamB;x";
                       "08:00-09:00;Q1;tabla;Backlog;2;West;TeamA;2"])
           "Q1" "Backlog" (parseInt "2")
           (mkTableRow "08:00-09:00" ["North"; "TeamA"; "5"])
           [(parseInt "2", mkTableRow "05:00-06:00" ["South"; "TeamB"; "x"]);
            (parseInt "2", mkTableRow "08:00-09:00" ["West"; "TeamA"; "2"])]
           {| headers := ["Column 1"; "Column 2"; "Total"; "08:00-09:00"; "05:00-06:00"];
              pivotedRows := [["North"; "TeamA"; "7"; "7"; "0"];
                              ["South"; "TeamB"; "0"; "0"; "0"]] |}
           1%nat).
  - vm_compute. reflexivity.
  - vm_compute. reflexivity.
  - vm_compute. reflexivity.
Defined.

(** *** The headers *)

Lemma firstOccurrences_snoc (l : list string) (x : string) :
  firstOccurrences (l ++ [x]) = setAdd x (firstOccurrences l).
Proof. unfold firstOccurrences. by rewrite fold_left_app. Qed.

(** The Set keeps of each string its first occurrence. *)
Lemma firstOccurrences_remove_dups (l : list string) :
  firstOccurrences l = reverse (remove_dups (reverse l)).
Proof.
  induction l as [|x l IH] using rev_ind; [done|].
  rewrite firstOccurrences_snoc, reverse_snoc. cbn [remove_dups].
  unfold setAdd. rewrite IH.
  destruct (decide_rel elem_of x (reverse l)) as [Hin|Hin].
  - rewrite bool_decide_true; [done|].
    by rewrite elem_of_reverse, elem_of_remove_dups.
  - rewrite bool_decide_false; [by rewrite reverse_cons|].
    by rewrite elem_of_reverse, elem_of_remove_dups.
Qed.

Lemma sort_StableSortByHour (l : list string) :
  StableSortByHour l (sort compareTimeRanges l).
Proof.
  assert (Hsorted : Sorted (fun a b => flt (getSortableHour b) (getSortableHour a) = false)
                           (sort compareTimeRanges l)).
  { apply (Sorted_impl (fun a b => greater compareTimeRanges a b = false)).
    - intros a b. by rewrite compareTimeRanges_greater.
    - apply sort_Sorted. intros x y. rewrite !compareTimeRanges_greater. apply flt_asym. }
  split; [apply sort_Permutation|]. split; [done|]. split.
  - intros Hnum.
    apply (Sorted_StronglySorted_on _ (fun t => isNaN (getSortableHour t) = false));
      [| |done].
    + intros x y z Hx Hy Hz Hxy Hyz. by apply (flt_not_trans _ (getSortableHour y)).
    + by rewrite <- (sort_Permutation compareTimeRanges l).
  - intros r. apply sort_filter. intros x y Hx%bool_decide_eq_true Hy%bool_decide_eq_true.
    rewrite compareTimeRanges_greater, Hx, Hy. apply flt_irrefl.
Qed.



(** *** When there is a pivot table *)

Lemma tableRecord_Some (itemName tableName line : string)
      (keyColumnIndex : number) (row : TableRow) :
  tableRecord itemName tableName line = Some (keyColumnIndex, row) →
  isNaN keyColumnIndex = false
  ∧ flt keyColumnIndex (of_nat 1) = false
  ∧ columns row ≠ [].
Proof.
  unfold tableRecord, decode.
  destruct (length (split ";" line) <? 5)%nat; [done|].
  destruct (split ";" line) as [|tr [|item [|discriminator rest]]]; try done.
  destruct (String.eqb discriminator "numero").
  { destruct rest as [|s [|vs [|]]]; try done. by destruct (isNaN (parseFloat vs)). }
  destruct (String.eqb discriminator "tabla"); [|done].
  destruct rest as [|t [|ks [|column more]]]; try done.
  destruct (isNaN (parseInt ks)) eqn:Hnan; [done|].
  destruct (flt (parseInt ks) (of_nat 1)) eqn:Hlt; [done|].
  case_bool_decide; [|done]. intros [= <- <-]. done.
Qed.

Lemma fsub_of_nat_isNaN (x : number) (n : nat) :
  isNaN x = false → isNaN (fsub x (of_nat n)) = false.
Proof.
  destruct x as [|a|a m]; [done|done|]. intros _.
  unfold fsub, of_nat, fneg, fadd.
  match goal with |- context [if ?b then _ else _] => destruct b end; [reflexivity|].
  unfold round_ratio.
  match goal with |- context [if ?b then _ else _] => destruct b end; reflexivity.
Qed.

Lemma fge_zero (x : number) :
  isNaN x = false → flt x zero = false → fge x (of_nat 0) = true.
Proof.
  change (of_nat 0) with zero. unfold fge, zero.
  destruct x as [|a|a m]; [done| |].
  - cbn [flt feq isNaN]. intros _ ->. reflexivity.
  - cbn [flt feq isNaN]. rewrite !signed_0. intros _ Hlt.
    apply Z.ltb_ge in Hlt. apply orb_true_iff.
    destruct (Z.eq_dec (signed a m) 0%Z) as [H0|H0].
    + right. by apply Z.eqb_eq.
    + left. apply Z.ltb_lt. lia.
Qed.


End PivotReport.

(** * Properties of the front end *)

(** ** The accumulated values of a graph *)

Section Cumulative.
Import JSString JSNumber JSArray Parser Decoder Specification Views Frontend.

Lemma cumulativeFrom_length (acc : number) (values : list number) :
  length (cumulativeFrom acc values) = length values.
Proof.
  revert acc. induction values as [|val values IH]; intros acc; [done|].
  cbn [cumulativeFrom length]. by rewrite IH.
Qed.

Lemma cumulativeFrom_lookup (acc : number) (values : list number) (i : nat) :
  (i < length values)%nat →
  cumulativeFrom acc values !! i = Some (fold_left fadd (take (S i) values) acc).
Proof.
  revert acc i. induction values as [|val values IH]; intros acc i Hi.
  - cbn [length] in Hi. lia.
  - cbn [cumulativeFrom]. destruct i as [|i].
    + by destruct values.
    + cbn [length] in Hi. rewrite lookup_cons. rewrite IH by lia. done.
Qed.

Lemma graphAt_lengths (rawData itemName seriesName : string) (graph : GraphData) :
  graphAt (parseAndOrganizeData rawData) itemName seriesName = Some graph →
  length (values graph) = length (labels graph).
Proof.
  unfold parseAndOrganizeData. rewrite organize_graphAt.
  destruct (numericSamples (rawLines rawData) itemName seriesName)
    as [|sample samples]; [done|].
  unfold graphOfSamples, sortGraph. cbn [fmap option_fmap option_map tuples].
  intros [= <-]. cbn [labels values]. by rewrite !length_map.
Qed.

(** X9.  The accumulated values of a graph are its running totals: as many
    as the values, the i-th the sum, from 0 and left to right, of the
    values up to the i-th, so that the last is the sum of all; for a graph
    of the report there is one accumulated value for each label. *)
Theorem accumulated_values_are_running_totals :
  (∀ values,
     length (cumulativeValues values) = length values
     ∧ (∀ i, (i < length values)%nat →
             cumulativeValues values !! i = Some (sumNumbers (take (S i) values)))
     ∧ (values ≠ [] → last (cumulativeValues values) = Some (sumNumbers values)))
  ∧ ∀ rawData itemName seriesName graph,
      graphAt (parseAndOrganizeData rawData) itemName seriesName = Some graph →
      length (cumulativeValues (values graph)) = length (labels graph).
Proof.
  split.
  - intros vs. unfold cumulativeValues, sumNumbers.
    split; [apply cumulativeFrom_length|]. split; [by apply cumulativeFrom_lookup|].
    intros Hne. rewrite last_lookup, cumulativeFrom_length.
    destruct vs as [|val vs]; [done|]. cbn [length Nat.pred].
    rewrite cumulativeFrom_lookup by (cbn [length]; lia).
    by rewrite <- (length_cons val vs), firstn_all.
  - intros rawData itemName seriesName graph Hgraph.
    unfold cumulativeValues. rewrite cumulativeFrom_length.
    by eapply graphAt_lengths.
Qed.
End Cumulative.

(** ** The canvases of the export *)

Section Canvases.
Import JSString JSNumber JSArray Parser Decoder Specification Views Frontend.
Context {C : Type}.

Local Abbreviation dashFree s := (¬ In "-"%char (list_ascii_of_string s)).

Lemma split_free (sep : ascii) (s : string) :
  ¬ In sep (list_ascii_of_string s) → split sep s = [s].
Proof.
  induction s as [|c s IH]; [done|]. cbn [list_ascii_of_string In split].
  intros Hnot. destruct (Ascii.eqb_spec c sep) as [->|Hc]; [tauto|].
  rewrite IH by tauto. done.
Qed.

(** The key of a chart reads back as its names. *)
Lemma split_canvasKey (activeTab graphName chartType : string) :
  dashFree activeTab → dashFree graphName →
  split "-" (canvasKey activeTab graphName chartType)
  = activeTab :: graphName :: split "-" chartType.
Proof.
  intros Htab Hgraph. unfold canvasKey.
  change ("-" +:+ ?s) with (String "-" s).
  rewrite split_before by done.
  change ("-" +:+ ?s) with (String "-" s).
  by rewrite split_before.
Qed.

Lemma chartsAt_registerCanvas_ne
      (chartsByItem : gmap string (gmap string (Canvases C)))
      (key : string) (canvas : option C) (itemName graphName : string) :
  (stringOf (split "-" key !! 0%nat), stringOf (split "-" key !! 1%nat))
  ≠ (itemName, graphName) →
  chartsAt (registerCanvas chartsByItem (key, canvas)) itemName graphName
  = chartsAt chartsByItem itemName graphName.
Proof.
  intros Hne. unfold registerCanvas. cbn [fst snd].
  destruct canvas as [canvas|]; [|done].
  set (item := stringOf (split "-" key !! 0%nat)) in *.
  set (graph := stringOf (split "-" key !! 1%nat)) in *.
  unfold chartsAt.
  destruct (decide (item = itemName)) as [->|Hitem].
  - rewrite lookup_insert_eq. cbn [mbind option_bind].
    rewrite lookup_insert_ne by congruence.
    by destruct (chartsByItem !! itemName).
  - by rewrite lookup_insert_ne.
Qed.

Lemma chartsAt_registerCanvas
      (chartsByItem : gmap string (gmap string (Canvases C)))
      (activeTab graphName chartType : string) (canvas : C) :
  dashFree activeTab → dashFree graphName →
  chartType = "bar" ∨ chartType = "line" →
  let existing :=
    default {| barCanvas := None; lineCanvas := None |}
            (chartsAt chartsByItem activeTab graphName) in
  chartsAt (registerCanvas chartsByItem
              (canvasKey activeTab graphName chartType, Some canvas))
           activeTab graphName
  = Some (if bool_decide (chartType = "bar")
          then {| barCanvas := Some canvas; lineCanvas := lineCanvas existing |}
          else {| barCanvas := barCanvas existing; lineCanvas := Some canvas |}).
Proof.
  intros Htab Hgraph Htype existing. unfold registerCanvas. cbn [fst snd].
  rewrite split_canvasKey by done.
  change ((activeTab :: graphName :: split "-" chartType) !! 0%nat)
    with (Some activeTab).
  change ((activeTab :: graphName :: split "-" chartType) !! 1%nat)
    with (Some graphName).
  change ((activeTab :: graphName :: split "-" chartType) !! 2%nat)
    with (split "-" chartType !! 0%nat).
  change (stringOf (Some activeTab)) with activeTab.
  change (stringOf (Some graphName)) with graphName.
  unfold chartsAt. rewrite lookup_insert_eq. cbn [mbind option_bind].
  rewrite lookup_insert_eq. f_equal.
  assert (Hexisting :
            default {| barCanvas := None; lineCanvas := None |}
                    (default ∅ (chartsByItem !! activeTab) !! graphName)
            = existing).
  { subst existing. unfold chartsAt.
    by destruct (chartsByItem !! activeTab). }
  rewrite Hexisting.
  destruct Htype as [-> | ->]; vm_compute split; cbn [lookup list_lookup].
  - by rewrite !bool_decide_true.
  - rewrite (bool_decide_false (Some "line" = Some "bar")) by done.
    rewrite bool_decide_true by done. by rewrite bool_decide_false.
Qed.

Lemma collectCharts_snoc (entries : list (string * option C)) (entry : string * option C) :
  collectCharts (entries ++ [entry]) = registerCanvas (collectCharts entries) entry.
Proof. unfold collectCharts. by rewrite fold_left_app. Qed.


Lemma append_ne (a : string) (c : ascii) (rest : string) : a ≠ a +:+ String c rest.
Proof.
  induction a as [|x a IH]; [done|].
  change (String x a ≠ String x (a +:+ String c rest)).
  intros [= Heq]. by apply IH.
Qed.

Lemma append_associative (a b c : string) : (a +:+ b) +:+ c = a +:+ (b +:+ c).
Proof.
  induction a as [|x a IH]; [done|].
  change (String x ((a +:+ b) +:+ c) = String x (a +:+ (b +:+ c))). by rewrite IH.
Qed.

End Canvases.

Section CanvasExamples.
Import JSString JSNumber JSArray Parser Decoder Specification Views Frontend.


End CanvasExamples.

(** ** The standard tables of the page and of the slides *)

Section StandardTables.
Import JSString JSNumber JSArray Parser Decoder Specification Views Frontend.

Lemma maxColumns_ge (rowsColumns : list (list string)) (rowColumns : list string) :
  rowColumns ∈ rowsColumns → (length rowColumns ≤ maxColumns rowsColumns)%nat.
Proof.
  unfold maxColumns. induction rowsColumns as [|l ls IH]; intros Hin.
  - by apply elem_of_nil in Hin.
  - cbn [map foldr]. apply elem_of_cons in Hin as [->|Hin]; [lia|].
    specialize (IH Hin). lia.
Qed.

Lemma paddedColumns_length (maxCols : nat) (rowColumns : list string) :
  (length rowColumns ≤ maxCols)%nat →
  length (paddedColumns maxCols rowColumns) = maxCols.
Proof. intros Hle. unfold paddedColumns. rewrite length_app, length_replicate. lia. Qed.

Lemma organize_standardTables (lines : list string) (itemName : string) (item : ItemData) :
  organize lines !! itemName = Some item → standardTables item = ∅.
Proof.
  intros Hitem. apply map_empty. intros tableName.
  pose proof (organize_standardTableAt lines itemName tableName) as Hat.
  unfold standardTableAt in Hat. by rewrite Hitem in Hat.
Qed.

(** X12.  A standard table is padded to a rectangle.  On the page its
    header row has "Rango Horario" and one header for each column of its
    widest row, and every body row has as many cells: the time range, the
    columns of the row, then empty cells; the number of empty cells asked
    for is never negative.  On the slide of an item the header row has two
    more headers than the widest row of all its tables has columns, and
    every row below it is as long.  An item without standard tables gets no
    such slide, and so it is for every item of a report made by the
    parser. *)
Theorem standard_tables_are_padded_to_a_rectangle :
  (∀ tableData,
     let view := standardTableView tableData in
     let maxCols := maxColumns (map columns (rows tableData)) in
     length view.1 = S maxCols
     ∧ Forall (fun cells => length cells = length view.1) view.2
     ∧ Forall2 (fun row cells =>
                  (length (columns row) ≤ maxCols)%nat
                  ∧ cells = timeRange row :: columns row
                            ++ replicate (maxCols - length (columns row)) "")
               (rows tableData) view.2)
  ∧ (∀ entries,
       match standardTablesSlide entries with
       | None => entries = []
       | Some slide =>
           ∃ headers body,
             slide = headers :: body
             ∧ length headers
               = (2 + maxColumns (map (fun r => columns r.2) (allRowsOf entries)))%nat
             ∧ Forall (fun cells => length cells = length headers) body
             ∧ length body = length (allRowsOf entries)
       end)
  ∧ ∀ rawData itemName item,
      parseAndOrganizeData rawData !! itemName = Some item →
      standardTablesSlide (map_to_list (standardTables item)) = None.
Proof.
  split; [|split].
  - intros tableData view maxCols. subst view. unfold standardTableView.
    fold maxCols. cbn [fst snd].
    split; [by rewrite length_cons, length_map, length_seq|]. split.
    + apply Forall_forall. intros cells [row [<- Hrow]]%list_elem_of_In%in_map_iff.
      rewrite !length_cons, length_map, length_seq. f_equal.
      apply paddedColumns_length, maxColumns_ge.
      apply list_elem_of_In, in_map. done.
    + apply Forall2_fmap_r, Forall_Forall2_diag, Forall_forall.
      intros row Hrow. split; [|done].
      apply maxColumns_ge, list_elem_of_In, in_map. by apply list_elem_of_In.
  - intros entries. unfold standardTablesSlide.
    destruct entries as [|entry entries]; [done|].
    set (allRows := allRowsOf (entry :: entries)).
    set (maxCols := maxColumns _).
    eexists _, _. split; [reflexivity|].
    split; [by rewrite length_app, textColumnHeaders_length|].
    split; [|by rewrite length_map].
    apply Forall_forall. intros cells [r [<- Hr]]%list_elem_of_In%in_map_iff.
    rewrite !length_app, textColumnHeaders_length. cbn [length]. f_equal. f_equal.
    apply paddedColumns_length, maxColumns_ge.
    apply list_elem_of_In, (in_map (fun r : string * TableRow => columns r.2)). done.
  - intros rawData itemName item Hitem.
    rewrite (organize_standardTables _ _ _ Hitem). by rewrite map_to_list_empty.
Qed.
End StandardTables.

(** ** The tabs *)

Section Tabs.
Import JSString JSNumber JSArray Parser Decoder Specification Views Frontend.

(** X13.  When a report arrives whose items are the tabs, and there is at
    least one, the active tab becomes one of them: the tab that was active,
    when it is not empty and still a tab, the first tab otherwise.  The data
    shown is then the data of that item, unless the name of the item is the
    empty string: for that tab nothing is shown.  Without tabs there is no
    active tab and nothing is shown. *)
Theorem active_tab_is_a_tab_of_the_report
        (current : option string) (newTabs : list string)
        (processedData : ProcessedResults) :
  (∀ tab, tab ∈ newTabs ↔ is_Some (processedData !! tab)) →
  match selectActiveTab current newTabs with
  | None => newTabs = [] ∧ currentTabData None processedData = None
  | Some tab =>
      tab ∈ newTabs
      ∧ (∀ previous, current = Some previous → previous ≠ "" →
                     previous ∈ newTabs → tab = previous)
      ∧ (current = None ∨ current = Some ""
         ∨ (∃ previous, current = Some previous ∧ previous ∉ newTabs) →
         head newTabs = Some tab)
      ∧ (tab ≠ "" →
         is_Some (currentTabData (Some tab) processedData)
         ∧ currentTabData (Some tab) processedData = processedData !! tab)
      ∧ (tab = "" → currentTabData (Some tab) processedData = None)
  end.
Proof.
  intros Htabs. unfold selectActiveTab.
  destruct newTabs as [|first newTabs]; [done|].
  assert (Hshown : ∀ tab, tab ∈ first :: newTabs →
            (tab ≠ "" →
             is_Some (currentTabData (Some tab) processedData)
             ∧ currentTabData (Some tab) processedData = processedData !! tab)
            ∧ (tab = "" → currentTabData (Some tab) processedData = None)).
  { intros tab Htab. unfold currentTabData.
    destruct (String.eqb_spec tab ""); [done|].
    split; [|done]. intros _. split; [|done]. by apply Htabs. }
  assert (Hfirst : first ∈ first :: newTabs) by apply list_elem_of_here.
  destruct current as [previous|].
  - destruct (String.eqb_spec previous "") as [->|Hne]; cbn [negb andb].
    + split; [done|]. split; [by intros p [= <-] Hp|].
      split; [by intros _|]. by apply Hshown.
    + case_bool_decide as Hin.
      * split; [done|]. split; [by intros p [= <-]|]. split; [|by apply Hshown].
        intros [Hnone|[Hempty|(p & Hp & Hnot)]]; [done|congruence|].
        injection Hp as <-. done.
      * split; [done|]. split; [by intros p [= <-] _ Hp|].
        split; [by intros _|]. by apply Hshown.
  - split; [done|]. split; [by intros p Hp|]. split; [by intros _|]. by apply Hshown.
Qed.

Lemma active_tab_is_a_tab_of_the_report_witness :
  match selectActiveTab (Some "Q2") ["Q1"; "Q2"] with
  | None => ["Q1"; "Q2"] = [] ∧ currentTabData None
                                   (parseAndOrganizeData
                                      (joinLines ["08:00;Q1;numero;Throughput;1";
                                                  "08:00;Q2;numero;Throughput;2"]))
                                 = None
  | Some tab =>
      tab ∈ ["Q1"; "Q2"]
      ∧ (∀ previous, Some "Q2" = Some previous → previous ≠ "" →
                     previous ∈ ["Q1"; "Q2"] → tab = previous)
      ∧ (Some "Q2" = None ∨ Some "Q2" = Some ""
         ∨ (∃ previous, Some "Q2" = Some previous ∧ previous ∉ ["Q1"; "Q2"]) →
         head ["Q1"; "Q2"] = Some tab)
      ∧ (tab ≠ "" →
         is_Some (currentTabData (Some tab)
                    (parseAndOrganizeData
                       (joinLines ["08:00;Q1;numero;Throughput;1";
                                   "08:00;Q2;numero;Throughput;2"])))
         ∧ currentTabData (Some tab)
             (parseAndOrganizeData
                (joinLines ["08:00;Q1;numero;Throughput;1";
                            "08:00;Q2;numero;Throughput;2"]))
           = parseAndOrganizeData
               (joinLines ["08:00;Q1;numero;Throughput;1";
                           "08:00;Q2;numero;Throughput;2"]) !! tab)
      ∧ (tab = "" →
         currentTabData (Some tab)
           (parseAndOrganizeData
              (joinLines ["08:00;Q1;numero;Throughput;1";
                          "08:00;Q2;numero;Throughput;2"])) = None)
  end.
Proof.
  apply (active_tab_is_a_tab_of_the_report
           (Some "Q2") ["Q1"; "Q2"]
           (parseAndOrganizeData
              (joinLines ["08:00;Q1;numero;Throughput;1";
                          "08:00;Q2;numero;Throughput;2"]))).
  intros tab. unfold parseAndOrganizeData. rewrite organize_is_Some.
  assert (Hnames : itemNames (rawLines (joinLines ["08:00;Q1;numero;Throughput;1";
                                                   "08:00;Q2;numero;Throughput;2"]))
                   = ["Q1"; "Q2"]) by (vm_compute; reflexivity).
  rewrite Hnames. reflexivity.
Defined.
End Tabs.

(** ** The numbers of a pivot table *)

Section PivotNumbers.
Import JSString JSNumber JSArray Parser Decoder Specification Views.

Lemma mapGet_mapUpdate (k : option string) (f : Aggregate → Aggregate)
      (m : AggregatedData) :
  mapGet k (mapUpdate k f m) = f <$> mapGet k m.
Proof.
  induction m as [|[k' e] m IH]; [done|]. cbn [mapUpdate mapGet].
  destruct (decide (k' = k)) as [->|Hne].
  - rewrite !bool_decide_true by done. cbn [mapGet]. by rewrite bool_decide_true.
  - rewrite !bool_decide_false by done. cbn [mapGet]. by rewrite bool_decide_false.
Qed.

Lemma mapGet_mapUpdate_ne (k k' : option string) (f : Aggregate → Aggregate)
      (m : AggregatedData) :
  k' ≠ k → mapGet k' (mapUpdate k f m) = mapGet k' m.
Proof.
  intros Hne. induction m as [|[k0 e] m IH]; [done|]. cbn [mapUpdate mapGet].
  destruct (decide (k0 = k)) as [->|Hk].
  - rewrite (bool_decide_true (k = k)) by done. cbn [mapGet].
    by rewrite !bool_decide_false by done.
  - rewrite (bool_decide_false (k0 = k)) by done. cbn [mapGet]. by rewrite IH.
Qed.

Lemma mapGet_snoc (k k' : option string) (e : Aggregate) (m : AggregatedData) :
  mapGet k (m ++ [(k', e)])
  = match mapGet k m with
    | Some x => Some x
    | None => if bool_decide (k' = k) then Some e else None
    end.
Proof.
  induction m as [|[k0 e0] m IH]; [done|]. cbn [app mapGet].
  by destruct (bool_decide (k0 = k)).
Qed.

Lemma mapGet_None (k : option string) (m : AggregatedData) :
  mapGet k m = None ↔ k ∉ map fst m.
Proof.
  induction m as [|[k0 e0] m IH]; cbn [mapGet map fst].
  - split; [intros _; apply not_elem_of_nil|done].
  - rewrite not_elem_of_cons. case_bool_decide as Hk.
    + split; [done|]. intros [Hne _]. by destruct Hne.
    + rewrite IH. split; [|tauto]. intros Hnot. split; [congruence|done].
Qed.

Lemma mapGet_lookup (m : AggregatedData) (i : nat) (k : option string) (e : Aggregate) :
  NoDup (map fst m) → m !! i = Some (k, e) → mapGet k m = Some e.
Proof.
  revert i. induction m as [|[k0 e0] m IH]; intros i Hnd Hi; [done|].
  cbn [map fst] in Hnd. apply NoDup_cons in Hnd as [Hfresh Hnd].
  cbn [mapGet]. destruct i as [|i].
  - injection Hi as -> ->. by rewrite bool_decide_true.
  - cbn in Hi. rewrite bool_decide_false; [by eapply IH|].
    intros ->. apply Hfresh, list_elem_of_In, in_map_iff.
    exists (k, e). split; [done|]. by eapply list_elem_of_In, list_elem_of_lookup_2.
Qed.

(** What a row does to the entry of a grouping value. *)
Lemma aggregateRow_mapGet (g : number) (v : nat) (acc : AggregatedData * list string)
      (row : TableRow) (k : option string) :
  mapGet k (aggregateRow g v acc row).1
  = if bool_decide (groupingValueOf g row = k) then
      let entry :=
        default {| otherKeyColumns := otherColumnsOf g v row;
                   total := zero; timeData := ∅ |}
                (mapGet k acc.1) in
      Some {| otherKeyColumns := otherKeyColumns entry;
              total := fadd (total entry) (rowValue v row);
              timeData :=
                <[timeRange row :=
                    fadd (getOrZero (timeData entry) (timeRange row)) (rowValue v row)]>
                  (timeData entry) |}
    else mapGet k acc.1.
Proof.
  destruct acc as [agg times]. unfold aggregateRow. cbn [fst snd].
  fold (groupingValueOf g row). fold (otherColumnsOf g v row). fold (rowValue v row).
  case_bool_decide as Hk.
  - subst k. rewrite mapGet_mapUpdate, mapHas_spec.
    case_bool_decide as Hin.
    + destruct (mapGet (groupingValueOf g row) agg) as [e|] eqn:He; [done|].
      by apply mapGet_None in He.
    + rewrite mapGet_snoc. apply mapGet_None in Hin. rewrite Hin.
      by rewrite bool_decide_true.
  - rewrite mapGet_mapUpdate_ne by done. rewrite mapHas_spec.
    case_bool_decide as Hin; [done|]. rewrite mapGet_snoc.
    destruct (mapGet k agg); [done|]. by rewrite bool_decide_false.
Qed.

Lemma orZero_zero : orZero zero = zero.
Proof. reflexivity. Qed.

Lemma getOrZero_cell (data : gmap string number) (tr : string) :
  getOrZero data tr = orZero (default zero (data !! tr)).
Proof. unfold getOrZero. by destruct (data !! tr). Qed.

(** The total and the cells of a grouping value after the rows. *)
Lemma fold_aggregateRow_numbers (g : number) (v : nat) (k : option string)
      (tableRows : list TableRow) (acc : AggregatedData * list string) :
  let after := mapGet k (fold_left (aggregateRow g v) tableRows acc).1 in
  let before := mapGet k acc.1 in
  default zero (total <$> after)
  = fold_left fadd (map (rowValue v) (rowsOfValue g k tableRows))
              (default zero (total <$> before))
  ∧ ∀ tr,
      default zero (after ≫= fun entry => timeData entry !! tr)
      = fold_left (fun cell x => fadd (orZero cell) x)
                  (map (rowValue v) (rowsOfTime tr (rowsOfValue g k tableRows)))
                  (default zero (before ≫= fun entry => timeData entry !! tr)).
Proof.
  revert acc. induction tableRows as [|row tableRows IH]; intros acc; [done|].
  cbn [fold_left]. cbv zeta in *.
  destruct (IH (aggregateRow g v acc row)) as [Htotal Hcells].
  rewrite Htotal. unfold rowsOfValue. cbn [List.filter].
  fold (rowsOfValue g k tableRows).
  rewrite aggregateRow_mapGet. cbv zeta.
  case_bool_decide as Hk.
  - split.
    + cbn [map fold_left fmap option_fmap option_map default total].
      by destruct (mapGet k acc.1).
    + intros tr. rewrite Hcells, aggregateRow_mapGet.
      rewrite bool_decide_true by done. cbv zeta.
      unfold rowsOfTime. cbn [List.filter]. fold (rowsOfTime tr (rowsOfValue g k tableRows)).
      cbn [mbind option_bind timeData].
      case_bool_decide as Htr.
      * subst tr. rewrite lookup_insert_eq. cbn [map fold_left default].
        f_equal. f_equal. rewrite getOrZero_cell.
        by destruct (mapGet k acc.1).
      * rewrite lookup_insert_ne by done. f_equal.
        by destruct (mapGet k acc.1).
  - split; [done|]. intros tr. rewrite Hcells, aggregateRow_mapGet.
    by rewrite bool_decide_false.
Qed.

(** X14.  The numbers of a pivot row are sums over the rows of the table
    that have its grouping value, taken in the order of the rows, each row
    giving the number its value column reads as, 0 when it reads as none:
    under "Total" stands the sum of them all, added up from 0; under a time
    range stands the sum of those of that time range, 0 when there is none,
    where a sum that has come to NaN or to zero counts as 0 before the
    next value is added and when it is shown. *)
Theorem pivot_numbers_are_sums_over_the_rows
        (rawData itemName tableName : string) (keyColumnIndex : number)
        (row0 : TableRow) (records : list (number * TableRow))
        (pivot : PivotTableData) :
  tableRecords (rawLines rawData) itemName tableName
  = (keyColumnIndex, row0) :: records →
  pivotTableAt (parseAndOrganizeData rawData) itemName tableName = Some pivot →
  let g := fsub keyColumnIndex (of_nat 1) in
  let v := (length (columns row0) - 1)%nat in
  let tableRows := row0 :: map snd records in
  ∀ i first cells,
    firstRows g [] tableRows !! i = Some first →
    pivotedRows pivot !! i = Some cells →
    let mine := rowsOfValue g (groupingValueOf g first) tableRows in
    headers pivot !! v = Some "Total"
    ∧ cells !! v = Some (toString (sumNumbers (map (rowValue v) mine)))
    ∧ ∀ j tr,
        headers pivot !! (v + 1 + j)%nat = Some tr →
        cells !! (v + 1 + j)%nat
        = Some (toString (orZero (sumCell (map (rowValue v) (rowsOfTime tr mine))))).
Proof.
  intros Hrecords Hpivot g v tableRows i first cells Hfirst Hcells mine.
  destruct (pivotTableAt_Some _ _ _ _ _ _ _ Hrecords Hpivot) as (_ & _ & Hh & Hr).
  fold g v tableRows in Hh, Hr.
  set (times := sort compareTimeRanges (aggregate g v tableRows).2) in *.
  rewrite Hr in Hcells.
  apply list_lookup_fmap_Some in Hcells as (row & -> & Hrow).
  apply list_lookup_fmap_Some in Hrow as ([key data] & -> & Hentry).
  pose proof (aggregate_entries g v tableRows) as Hentries.
  assert (Hkey : key = groupingValueOf g first).
  { apply (f_equal (fun l => l !! i)) in Hentries.
    rewrite !list_lookup_fmap, Hentry, Hfirst in Hentries.
    cbn [fmap option_fmap option_map fst snd] in Hentries. congruence. }
  assert (Hnd : NoDup (map fst (aggregate g v tableRows).1)).
  { assert (Heq : map fst (aggregate g v tableRows).1
                  = map (groupingValueOf g) (firstRows g [] tableRows)).
    { apply (f_equal (map fst)) in Hentries. rewrite !map_map in Hentries.
      exact Hentries. }
    rewrite Heq. by destruct (firstRows_keys g [] tableRows) as [? _]; [constructor|]. }
  pose proof (mapGet_lookup _ _ _ _ Hnd Hentry) as Hget.
  destruct (fold_aggregateRow_numbers g v key tableRows ([], [])) as [Htotal Hcell].
  fold (aggregate g v tableRows) in Htotal, Hcell. cbv zeta in Htotal, Hcell.
  rewrite Hget in Htotal, Hcell.
  cbn [fmap option_fmap option_map mbind option_bind mapGet fst] in Htotal, Hcell.
  change (default zero (Some (total data))) with (total data) in Htotal.
  change (default zero None) with zero in Htotal, Hcell.
  subst mine. rewrite <- Hkey.
  assert (Hlen : length (textColumns g key (otherKeyColumns data) v 0 0) = v)
    by apply textColumns_length.
  split; [|split].
  - rewrite Hh, lookup_app_r by (by rewrite textColumnHeaders_length).
    by rewrite textColumnHeaders_length, Nat.sub_diag.
  - unfold newRow. rewrite map_app, lookup_app_r by (by rewrite length_map, Hlen).
    rewrite length_map, Hlen, Nat.sub_diag. cbn [map app renderCell].
    cbn [lookup list_lookup]. by rewrite Htotal.
  - intros j tr Htr.
    rewrite Hh, lookup_app_r in Htr by (rewrite textColumnHeaders_length; lia).
    rewrite textColumnHeaders_length in Htr.
    replace (v + 1 + j - v)%nat with (S j) in Htr by lia.
    cbn [app] in Htr. rewrite lookup_cons in Htr.
    unfold newRow. rewrite map_app, lookup_app_r by (rewrite length_map, Hlen; lia).
    rewrite length_map, Hlen.
    replace (v + 1 + j - v)%nat with (S j) by lia.
    cbn [map app]. rewrite lookup_cons. rewrite map_map, list_lookup_fmap.
    rewrite Htr. cbn [fmap option_fmap option_map renderCell].
    rewrite getOrZero_cell, Hcell. done.
Qed.

Lemma pivot_numbers_are_sums_over_the_rows_witness :
  headers {| headers := ["Column 1"; "Column 2"; "Total"; "08:00-09:00"; "05:00-06:00"];
             pivotedRows := [["North"; "TeamA"; "7"; "7"; "0"];
                             ["South"; "TeamB"; "0"; "0"; "0"]] |}
    !! (length (columns (mkTableRow "08:00-09:00" ["North"; "TeamA"; "5"])) - 1)%nat
  = Some "Total".
Proof.
  assert (Hrecords :
            tableRecords
              (rawLines (joinLines ["08:00-09:00;Q1;tabla;Backlog;2;North;TeamA;5";
                                    "05:00-06:00;Q1;tabla;Backlog;2;South;TeamB;x";
                                    "08:00-09:00;Q1;tabla;Backlog;2;North;TeamA;2"]))
              "Q1" "Backlog"
            = [(parseInt "2", mkTableRow "08:00-09:00" ["North"; "TeamA"; "5"]);
               (parseInt "2", mkTableRow "05:00-06:00" ["South"; "TeamB"; "x"]);
               (parseInt "2", mkTableRow "08:00-09:00" ["North"; "TeamA"; "2"])])
    by (vm_compute; reflexivity).
  assert (Hpivot :
            pivotTableAt
              (parseAndOrganizeData
                 (joinLines ["08:00-09:00;Q1;tabla;Backlog;2;North;TeamA;5";
                             "05:00-06:00;Q1;tabla;Backlog;2;South;TeamB;x";
                             "08:00-09:00;Q1;tabla;Backlog;2;North;TeamA;2"]))
              "Q1" "Backlog"
            = Some {| headers := ["Column 1"; "Column 2"; "Total";
                                  "08:00-09:00"; "05:00-06:00"];
                      pivotedRows := [["North"; "TeamA"; "7"; "7"; "0"];
                                      ["South"; "TeamB"; "0"; "0"; "0"]] |})
    by (vm_compute; reflexivity).
  apply (pivot_numbers_are_sums_over_the_rows
           (joinLines ["08:00-09:00;Q1;tabla;Backlog;2;North;TeamA;5";
                       "05:00-06:00;Q1;tabla;Backlog;2;South;TeamB;x";
                       "08:00-09:00;Q1;tabla;Backlog;2;North;TeamA;2"])
           "Q1" "Backlog" (parseInt "2")
           (mkTableRow "08:00-09:00" ["North"; "TeamA"; "5"])
           [(parseInt "2", mkTableRow "05:00-06:00" ["South"; "TeamB"; "x"]);
            (parseInt "2", mkTableRow "08:00-09:00" ["North"; "TeamA"; "2"])]
           {| headers := ["Column 1"; "Column 2"; "Total"; "08:00-09:00"; "05:00-06:00"];
              pivotedRows := [["North"; "TeamA"; "7"; "7"; "0"];
                              ["South"; "TeamB"; "0"; "0"; "0"]] |}
           Hrecords Hpivot 0%nat
           (mkTableRow "08:00-09:00" ["North"; "TeamA"; "5"])
           ["North"; "TeamA"; "7"; "7"; "0"]).
  - vm_compute. reflexivity.
  - reflexivity.
Defined.
End PivotNumbers.

(** ** What the report depends on *)

Section Dependence.
Import JSString JSNumber JSArray Parser Decoder Specification Views.

Lemma rawTable_lookup (raw : RawTableData) (itemName tableName : string) :
  default ∅ (raw !! itemName) !! tableName = rawTableAt raw itemName tableName.
Proof. unfold rawTableAt. by destruct (raw !! itemName). Qed.

Lemma organize_ext (lines1 lines2 : list string) :
  (∀ itemName, itemName ∈ itemNames lines1 ↔ itemName ∈ itemNames lines2) →
  (∀ itemName seriesName,
     numericSamples lines1 itemName seriesName
     = numericSamples lines2 itemName seriesName) →
  (∀ itemName tableName,
     tableRecords lines1 itemName tableName
     = tableRecords lines2 itemName tableName) →
  organize lines1 = organize lines2.
Proof.
  intros Hitems Hsamples Hrecords. apply map_eq. intros j.
  rewrite !organize_lookup.
  pose proof (collect_items lines1 j) as H1.
  pose proof (collect_items lines2 j) as H2.
  destruct (processed (collect lines1) !! j) as [item1|] eqn:Hj1,
           (processed (collect lines2) !! j) as [item2|] eqn:Hj2.
  - cbn [fmap option_fmap option_map]. f_equal.
    destruct (collect_item _ _ _ Hj1) as (_ & _ & Hg1).
    destruct (collect_item _ _ _ Hj2) as (_ & _ & Hg2).
    f_equal.
    + apply map_eq. intros s. by rewrite !lookup_fmap, Hg1, Hg2, Hsamples.
    + apply map_eq. intros t.
      by rewrite !lookup_omap, !rawTable_lookup, !collect_rawTable, Hrecords.
  - exfalso. assert (Hin : is_Some (Some item1)) by by eexists.
    apply H1, Hitems, H2 in Hin. by destruct Hin.
  - exfalso. assert (Hin : is_Some (Some item2)) by by eexists.
    apply H2, Hitems, H1 in Hin. by destruct Hin.
  - done.
Qed.

(** X15.  The report depends on the lines only through the item names
    that occur in them and, for each item, the sequence of the valid
    records of each series and of each table: two logs that agree on these
    give the same report, however the lines of different series are
    interleaved.  In particular a line with fewer than 5 fields can be
    taken out of a log, wherever it stands, without changing the report. *)
Theorem report_depends_on_the_records_of_each_series :
  (∀ rawData1 rawData2,
     (∀ itemName, itemName ∈ itemNames (rawLines rawData1)
                  ↔ itemName ∈ itemNames (rawLines rawData2)) →
     (∀ itemName seriesName,
        numericSamples (rawLines rawData1) itemName seriesName
        = numericSamples (rawLines rawData2) itemName seriesName) →
     (∀ itemName tableName,
        tableRecords (rawLines rawData1) itemName tableName
        = tableRecords (rawLines rawData2) itemName tableName) →
     parseAndOrganizeData rawData1 = parseAndOrganizeData rawData2)
  ∧ ∀ before after line,
      (length (split ";" line) < 5)%nat →
      organize (before ++ line :: after) = organize (before ++ after).
Proof.
  split.
  - intros rawData1 rawData2 Hitems Hsamples Hrecords.
    by apply organize_ext.
  - intros before after line Hshort.
    assert (Hitem : lineItem line = None).
    { unfold lineItem. destruct (Nat.leb_spec 5 (length (split ";" line))); [lia|done]. }
    pose proof (lineItem_None_decode _ Hitem) as Hdecode.
    apply organize_ext.
    + intros j. unfold itemNames. rewrite !omap_app. cbn [omap list_omap].
      by rewrite Hitem.
    + intros j s. by apply numericSamples_skip.
    + intros j t. unfold tableRecords. rewrite !omap_app. cbn [omap list_omap].
      unfold tableRecord at 2. by rewrite Hdecode.
Qed.

Lemma report_depends_on_the_records_of_each_series_witness :
  parseAndOrganizeData (joinLines ["08:00;Q1;numero;Throughput;1";
                                   "08:00;Q2;numero;Latency;2"])
  = parseAndOrganizeData (joinLines ["08:00;Q2;numero;Latency;2";
                                     "08:00;Q1;numero;Throughput;1"])
  ∧ organize (["08:00;Q1;numero;Throughput;1"] ++ "a;b;c;d" :: ["08:00;Q2;numero;Latency;2"])
    = organize (["08:00;Q1;numero;Throughput;1"] ++ ["08:00;Q2;numero;Latency;2"]).
Proof.
  destruct report_depends_on_the_records_of_each_series as [Hsame Hshort].
  assert (Hlines1 : rawLines (joinLines ["08:00;Q1;numero;Throughput;1";
                                         "08:00;Q2;numero;Latency;2"])
                    = ["08:00;Q1;numero;Throughput;1"; "08:00;Q2;numero;Latency;2"])
    by (vm_compute; reflexivity).
  assert (Hlines2 : rawLines (joinLines ["08:00;Q2;numero;Latency;2";
                                         "08:00;Q1;numero;Throughput;1"])
                    = ["08:00;Q2;numero;Latency;2"; "08:00;Q1;numero;Throughput;1"])
    by (vm_compute; reflexivity).
  assert (Hd1 : ∃ x, decode "08:00;Q1;numero;Throughput;1"
                     = Some (Numeric "08:00" "Q1" "Throughput" x))
    by (exists (of_nat 1); vm_compute; reflexivity).
  assert (Hd2 : ∃ x, decode "08:00;Q2;numero;Latency;2"
                     = Some (Numeric "08:00" "Q2" "Latency" x))
    by (exists (of_nat 2); vm_compute; reflexivity).
  destruct Hd1 as [x1 Hd1], Hd2 as [x2 Hd2].
  split.
  - apply Hsame.
    + intros j. rewrite Hlines1, Hlines2.
      assert (Hn1 : itemNames ["08:00;Q1;numero;Throughput;1"; "08:00;Q2;numero;Latency;2"]
                    = ["Q1"; "Q2"]) by (vm_compute; reflexivity).
      assert (Hn2 : itemNames ["08:00;Q2;numero;Latency;2"; "08:00;Q1;numero;Throughput;1"]
                    = ["Q2"; "Q1"]) by (vm_compute; reflexivity).
      rewrite Hn1, Hn2, !elem_of_cons, !elem_of_nil. tauto.
    + intros j s. rewrite Hlines1, Hlines2. unfold numericSamples.
      cbn [omap list_omap]. unfold numericSample. rewrite Hd1, Hd2.
      destruct (decide (j = "Q1")) as [->|Hj].
      * rewrite (bool_decide_false ("Q2" = "Q1" ∧ "Latency" = s))
          by (intros [Hq _]; discriminate Hq).
        destruct (bool_decide ("Q1" = "Q1" ∧ "Throughput" = s)); reflexivity.
      * rewrite (bool_decide_false ("Q1" = j ∧ "Throughput" = s))
          by (intros [Hq _]; by apply Hj).
        destruct (bool_decide ("Q2" = j ∧ "Latency" = s)); reflexivity.
    + intros j t. rewrite Hlines1, Hlines2. unfold tableRecords.
      cbn [omap list_omap]. unfold tableRecord. by rewrite Hd1, Hd2.
  - apply Hshort. vm_compute. lia.
Defined.
End Dependence.
